(** * Caprecon NGO API: the schema layer and the route handlers

    A shallow embedding of [src/schemas.py] (the declarative record
    definitions) and of [src/main.py] (the route handlers), with the
    document store they call and the parts of the web framework that
    the handlers rely on (request-body validation, default query
    parameters, the translation of exceptions into HTTP responses).

    Conventions.
    - A Python [dict] with string keys is a [gmap string value].
    - A Python [str] is a [string] holding the text in UTF-8: an ASCII
      character is one element, any other character two to four.  The
      slices [s[:n]] of the source count characters, not elements:
      they are [first_chars n s].
    - A Python [float] is a primitive IEEE 754 binary64 [float].
    - A Python [int] in a query parameter is a [Z]. *)

From Stdlib Require Import ZArith Ascii String Floats.
From stdpp Require Import base option list gmap strings pretty.

Local Open Scope string_scope.
Local Open Scope Z_scope.

(** ** Python values *)

#[warnings="-register-all"]
Inductive value : Type :=
| VNone                         (* None, JSON null *)
| VBool (b : bool)
| VNum (x : float)              (* a JSON number, read as a double *)
| VStr (s : string)
| VList (l : list value)
| VObjectId (oid : string).     (* bson.ObjectId: the store-native id type *)

(** Leibniz equality of doubles is decided by the kernel primitive. *)
#[global] Instance float_eq_dec : EqDecision float.
Proof.
  intros x y. destruct (PrimFloat.Leibniz.eqb x y) eqn:E.
  - left. by apply FloatAxioms.Leibniz.eqb_spec.
  - right. intros Heq. apply FloatAxioms.Leibniz.eqb_spec in Heq. congruence.
Defined.

#[global] Instance value_eq_dec : EqDecision value.
Proof.
  refine (fix go (v1 v2 : value) {struct v1} : Decision (v1 = v2) :=
    match v1, v2 with
    | VNone, VNone => left _
    | VBool b1, VBool b2 => cast_if (decide (b1 = b2))
    | VNum x1, VNum x2 => cast_if (decide (x1 = x2))
    | VStr s1, VStr s2 => cast_if (decide (s1 = s2))
    | VList l1, VList l2 => cast_if (@list_eq_dec _ go l1 l2)
    | VObjectId o1, VObjectId o2 => cast_if (decide (o1 = o2))
    | _, _ => right _
    end); abstract congruence.
Defined.

(** A document: a dict from field names to values. *)
Abbreviation document := (gmap string value).

(** ** Exceptions and the handler monad

    A handler runs against the process-wide state and either returns or
    raises.  An exception has a class and a text, [str e].  Two classes
    matter to the source: [AttributeError], which [hasattr] swallows,
    and the rest, which stand under [Exception], Python's built-in
    class.  [HTTPException] is the framework's, raised by the create
    handlers. *)

Inductive exn_class : Type :=
| ExceptionClass
| AttributeErrorClass.

Record exn : Type := Raised { class_of : exn_class; str : string }.

(** [Exception(text)] and [AttributeError(text)] *)
Definition Exception (text : string) : exn := Raised ExceptionClass text.
Definition AttributeError (text : string) : exn :=
  Raised AttributeErrorClass text.

Definition is_attribute_error (e : exn) : bool :=
  match class_of e with
  | AttributeErrorClass => true
  | ExceptionClass => false
  end.

(** A byte that continues a character of a UTF-8 text. *)
Definition continues (c : ascii) : bool :=
  match c with
  | Ascii _ _ _ _ _ _ b6 b7 => b7 && negb b6
  end.

(** [s[:n]]: the first [n] characters of a text, each with all its
    bytes; the whole text when it has no more than [n]. *)
Fixpoint first_chars (n : nat) (s : string) : string :=
  match s with
  | EmptyString => EmptyString
  | String c s' =>
    if continues c then String c (first_chars n s')
    else match n with
         | O => EmptyString
         | S n' => String c (first_chars n' s')
         end
  end.

(** [len(s)]: the number of characters of a text. *)
Fixpoint len (s : string) : nat :=
  match s with
  | EmptyString => O
  | String c s' => if continues c then len s' else S (len s')
  end.

Inductive raised : Type :=
| Plain (e : exn)
| HTTPException (status_code : Z) (detail : string).

Inductive result (E A : Type) : Type :=
| Ok (a : A)
| Raise (e : E).
Arguments Ok {E A} a.
Arguments Raise {E A} e.

(** [Py S E A]: a computation over a mutable state [S] that returns an
    [A] or raises an [E].  A mutation made before a raise stays made. *)
Definition Py (S E A : Type) : Type := S → result E A * S.

Definition ret {S E A} (a : A) : Py S E A := λ s, (Ok a, s).
Definition raise {S E A} (e : E) : Py S E A := λ s, (Raise e, s).
Definition bind {S E A B} (m : Py S E A) (k : A → Py S E B) : Py S E B :=
  λ s, match m s with
       | (Ok a, s') => k a s'
       | (Raise e, s') => (Raise e, s')
       end.
(** [try: m except Exception as e: h e] *)
Definition try_except {S E E' A} (m : Py S E A) (h : E → Py S E' A)
  : Py S E' A :=
  λ s, match m s with
       | (Ok a, s') => (Ok a, s')
       | (Raise e, s') => h e s'
       end.
Definition get {S E} : Py S E S := λ s, (Ok s, s).
Definition modify {S E} (f : S → S) : Py S E unit := λ s, (Ok tt, f s).

Declare Scope py_scope.
Delimit Scope py_scope with py.
Notation "x <~ m ;; k" := (bind m (λ x, k))
  (at level 100, m at next level, right associativity) : py_scope.
Notation "m ;;; k" := (bind m (λ _, k))
  (at level 100, right associativity) : py_scope.

(** ** The document store

    [main.py] imports [create_document], [get_documents] and the handle
    [db] from [database.py], which is not among the sources.  The state
    they act on is modelled here and the two helpers below it. *)

(** An attribute of a Python object, as [hasattr] and attribute access
    see it: absent, present, or a property whose getter raises (an
    [AttributeError] or another exception). *)
Inductive attr : Type :=
| NoAttr
| Attr (v : value)
| AttrRaises (e : exn).

(** The database handle [db].  [fault], when set, is the error text
    with which the server answers every operation of the driver. *)
Record Database : Type := {
  name : attr;
  collections : gmap string (list document);
  next_oid : nat;
  fault : option string
}.

(** A call of the store adapter, recorded in the order it was made. *)
Inductive call : Type :=
| Insert (collection_name : string) (data : document)
| Find (collection_name : string) (filter_dict : document) (limit : option Z).

#[global] Instance call_eq_dec : EqDecision call.
Proof. solve_decision. Defined.

(** The process-wide state: the handle (None when no connection was
    configured), the environment variables, and the adapter calls made
    so far. *)
Record World : Type := {
  db : option Database;
  environ : gmap string string;
  calls : list call
}.

Definition log (c : call) (w : World) : World :=
  {| db := db w; environ := environ w; calls := (calls w ++ [c])%list |}.

Definition set_db (d : Database) (w : World) : World :=
  {| db := Some d; environ := environ w; calls := calls w |}.

(** Modelled from the spec: the text of the error raised when the
    connection is unavailable is not given; the error is named
    StoreUnavailableError there. *)
Definition StoreUnavailableError : exn :=
  Exception "StoreUnavailableError".

(** Modelled from the spec: "every record's identifier is assigned by
    the store on creation" (section 3); the n-th insert is given the
    text of n. *)
Definition oid_of (n : nat) : string := pretty n.

(** Modelled from the spec: the filter of section 4.3 restricts
    "status = published"; a filter matches a document that has each
    of the filter's keys with the same value. *)
Definition doc_matches (filter_dict d : document) : Prop :=
  map_Forall (λ k v, d !! k = Some v) filter_dict.

#[global] Instance doc_matches_dec filter_dict d :
  Decision (doc_matches filter_dict d).
Proof. unfold doc_matches. apply _. Defined.

(** Modelled from the spec: "returns up to limit matching records";
    nothing bounds the result when no limit is given. *)
Definition up_to (limit : option Z) (docs : list document) : list document :=
  match limit with
  | None => docs
  | Some n => take (Z.to_nat n) docs
  end.

(** Modelled from the spec: insertDocument of section 4.1,
    "serializes the record to a plain key-value structure, inserts into
    the named collection, returns the newly assigned identifier as a
    string.  Fails with a StoreError if the underlying connection is
    unavailable or the write is rejected." *)
Definition create_document (collection_name : string) (data : document)
  : Py World exn string :=
  (modify (log (Insert collection_name data)) ;;;
   w <~ get ;;
   match db w with
   | None => raise StoreUnavailableError
   | Some d =>
     match fault d with
     | Some text => raise (Exception text)
     | None =>
       let oid := oid_of (next_oid d) in
       let stored := <["_id" := VObjectId oid]> data in
       let old : list document := collections d !!! collection_name in
       modify (set_db {| name := name d;
                         collections :=
                           <[collection_name := (old ++ [stored])%list]> (collections d);
                         next_oid := S (next_oid d);
                         fault := fault d |}) ;;;
       ret oid
     end
   end)%py.

(** Modelled from the spec: queryDocuments of section 4.1, "returns up
    to limit matching records (insertion-order or store-default order),
    each including its assigned identifier".  Insertion order is the
    order chosen here. *)
Definition get_documents (collection_name : string) (filter_dict : document)
  (limit : option Z) : Py World exn (list document) :=
  (modify (log (Find collection_name filter_dict limit)) ;;;
   w <~ get ;;
   match db w with
   | None => raise StoreUnavailableError
   | Some d =>
     match fault d with
     | Some text => raise (Exception text)
     | None =>
       ret (up_to limit
              (filter (doc_matches filter_dict)
                      (collections d !!! collection_name)))
     end
   end)%py.

(** [db.list_collection_names()], a method of the driver's handle:
    the names of the collections, or the server's fault. *)
Definition list_collection_names (d : Database) : result exn (list string) :=
  match fault d with
  | Some text => Raise (Exception text)
  | None => Ok (map fst (map_to_list (collections d)))
  end.

(** [os.getenv(key)] *)
Definition getenv (w : World) (key : string) : option string :=
  environ w !! key.

(** ** The schema layer (schemas.py)

    A model class is the list of its fields, in declaration order.  A
    field has a name, a type annotation, a default (or none) and, for
    [amount], the bound of [gt].  [Report] and [Metric] are declared in
    the source but used by no endpoint; they are left out. *)

Inductive annotation : Type :=
| TStr                              (* str *)
| TFloat                            (* float *)
| TBool                             (* bool *)
| EmailStr
| ListOf (t : annotation)           (* List[t] *)
| Literal (choices : list string)   (* Literal['a', 'b', ...] *)
| Optional (t : annotation).        (* Optional[t] *)

Inductive fdefault : Type :=
| Required                 (* no default, or Field(...) *)
| Default (v : value)      (* = v, or Field(v) *)
| DefaultFactoryList.      (* Field(default_factory=list) *)

Record field : Type := Field {
  f_name : string;
  f_type : annotation;
  f_default : fdefault;
  f_gt : option float
}.

Abbreviation schema := (list field).

Definition Program : schema := [
  Field "title" TStr Required None;
  Field "summary" TStr Required None;
  Field "problem_context" (Optional TStr) (Default VNone) None;
  Field "approach" (Optional TStr) (Default VNone) None;
  Field "activities" (Optional (ListOf TStr)) DefaultFactoryList None;
  Field "beneficiaries" (Optional (ListOf TStr)) DefaultFactoryList None;
  Field "expected_impact" (Optional TStr) (Default VNone) None;
  Field "locations" (Optional (ListOf TStr)) DefaultFactoryList None;
  Field "tags" (Optional (ListOf TStr)) DefaultFactoryList None;
  Field "status" (Optional (Literal ["draft"; "published"]))
        (Default (VStr "published")) None
].

Definition Story : schema := [
  Field "title" TStr Required None;
  Field "excerpt" (Optional TStr) (Default VNone) None;
  Field "body" (Optional TStr) (Default VNone) None;
  Field "program_tags" (Optional (ListOf TStr)) DefaultFactoryList None;
  Field "author" (Optional TStr) (Default VNone) None;
  Field "location" (Optional TStr) (Default VNone) None;
  Field "status" (Optional (Literal ["draft"; "published"]))
        (Default (VStr "published")) None
].

Definition Post : schema := [
  Field "title" TStr Required None;
  Field "excerpt" (Optional TStr) (Default VNone) None;
  Field "body" (Optional TStr) (Default VNone) None;
  Field "category" (Optional TStr) (Default VNone) None;
  Field "tags" (Optional (ListOf TStr)) DefaultFactoryList None;
  Field "author" (Optional TStr) (Default VNone) None;
  Field "status" (Optional (Literal ["draft"; "published"]))
        (Default (VStr "published")) None
].

Definition DonationIntent : schema := [
  Field "amount" TFloat Required (Some 0%float);
  Field "currency" TStr (Default (VStr "USD")) None;
  Field "frequency" (Literal ["one_time"; "monthly"])
        (Default (VStr "one_time")) None;
  Field "fund" (Optional TStr) (Default VNone) None;
  Field "first_name" TStr Required None;
  Field "last_name" TStr Required None;
  Field "email" EmailStr Required None;
  Field "country" (Optional TStr) (Default VNone) None;
  Field "message" (Optional TStr) (Default VNone) None;
  Field "consent" TBool Required None
].

Definition VolunteerApplication : schema := [
  Field "name" TStr Required None;
  Field "email" EmailStr Required None;
  Field "phone" (Optional TStr) (Default VNone) None;
  Field "location" (Optional TStr) (Default VNone) None;
  Field "role_interest" (Optional TStr) (Default VNone) None;
  Field "availability" (Optional TStr) (Default VNone) None;
  Field "experience" (Optional TStr) (Default VNone) None;
  Field "references" (Optional TStr) (Default VNone) None;
  Field "consent" TBool Required None;
  Field "status"
        (Optional (Literal ["received"; "screening"; "accepted"; "declined"]))
        (Default (VStr "received")) None
].

Definition PartnerInquiry : schema := [
  Field "organization" TStr Required None;
  Field "partner_type" (Optional TStr) (Default VNone) None;
  Field "contact_name" TStr Required None;
  Field "email" EmailStr Required None;
  Field "phone" (Optional TStr) (Default VNone) None;
  Field "country" (Optional TStr) (Default VNone) None;
  Field "collaboration_areas" (Optional TStr) (Default VNone) None;
  Field "message" (Optional TStr) (Default VNone) None;
  Field "compliance_ack" TBool Required None;
  Field "status"
        (Optional (Literal ["received"; "in_discussion"; "mou_draft"; "closed"]))
        (Default (VStr "received")) None
].

Definition ContactMessage : schema := [
  Field "topic" (Optional TStr) (Default VNone) None;
  Field "name" TStr Required None;
  Field "email" EmailStr Required None;
  Field "message" TStr Required None;
  Field "consent" TBool Required None
].

(** [class Created(BaseModel)] of main.py *)
Definition Created : schema := [
  Field "id" TStr Required None;
  Field "message" TStr Required None
].

(** *** Validation

    What the model classes do with an input dict.  A field takes a
    value of its declared JSON type; the conversions between scalar
    types that the validation library may add on its own (a numeric
    text read as a number, say) are no part of the declarations and
    are not modelled.  The syntax check of [EmailStr] belongs to the
    e-mail library, not to this repository: it is an interface,
    returning the normalised address or nothing. *)

Class EmailValidator : Type :=
  validate_email : string → option string.

(** The kinds of violation a field can report. *)
Inductive problem : Type :=
| missing
| string_type
| float_type
| bool_type
| list_type
| literal_error
| value_error        (* not an e-mail address *)
| greater_than.

#[global] Instance problem_eq_dec : EqDecision problem.
Proof. solve_decision. Defined.

(** All the values if every one is valid, else the first problem. *)
Fixpoint collect (rs : list (problem + value)) : problem + list value :=
  match rs with
  | [] => inr []
  | inl p :: _ => inl p
  | inr v :: rs' =>
    match collect rs' with
    | inl p => inl p
    | inr vs => inr (v :: vs)
    end
  end.

Fixpoint validate_type `{EmailValidator} (t : annotation) (v : value)
  : problem + value :=
  match t with
  | TStr => match v with VStr _ => inr v | _ => inl string_type end
  | TFloat => match v with VNum _ => inr v | _ => inl float_type end
  | TBool => match v with VBool _ => inr v | _ => inl bool_type end
  | EmailStr =>
    match v with
    | VStr s =>
      match validate_email s with
      | Some s' => inr (VStr s')
      | None => inl value_error
      end
    | _ => inl string_type
    end
  | ListOf t' =>
    match v with
    | VList l =>
      match collect (map (validate_type t') l) with
      | inl p => inl p
      | inr vs => inr (VList vs)
      end
    | _ => inl list_type
    end
  | Literal choices =>
    match v with
    | VStr s => if decide (s ∈ choices) then inr v else inl literal_error
    | _ => inl literal_error
    end
  | Optional t' =>
    match v with
    | VNone => inr VNone
    | _ => validate_type t' v
    end
  end.

(** [gt=bound]: the validated number must be strictly greater. *)
Definition check_gt (bound : option float) (v : value) : problem + value :=
  match bound, v with
  | Some b, VNum x => if PrimFloat.ltb b x then inr v else inl greater_than
  | _, _ => inr v
  end.

(** One field of the model against the input: the default when the key
    is absent (defaults are not validated), else the validated value. *)
Definition check_field `{EmailValidator} (f : field) (raw : document)
  : problem + value :=
  match raw !! f_name f with
  | None =>
    match f_default f with
    | Required => inl missing
    | Default v => inr v
    | DefaultFactoryList => inr (VList [])
    end
  | Some v =>
    match validate_type (f_type f) v with
    | inl p => inl p
    | inr v' => check_gt (f_gt f) v'
    end
  end.

(** A violation: the field and the problem. *)
Abbreviation violation := (string * problem)%type.

(** Every field is checked; keys of the input that the model does not
    declare are ignored.  The violations come in field order. *)
Fixpoint validate_fields `{EmailValidator} (fs : schema) (raw : document)
  : list violation * document :=
  match fs with
  | [] => ([], ∅)
  | f :: fs' =>
    let '(errs, m) := validate_fields fs' raw in
    match check_field f raw with
    | inl p => ((f_name f, p) :: errs, m)
    | inr v => (errs, <[f_name f := v]> m)
    end
  end.

(** Building a model from an input dict: the model instance, as the
    dict of its fields, or the violations of the ValidationError. *)
Definition validate `{EmailValidator} (model : schema) (raw : document)
  : list violation + document :=
  match validate_fields model raw with
  | ([], m) => inr m
  | (errs, _) => inl errs
  end.

(** ** The HTTP layer (main.py)

    What the framework does around a handler: the request body is
    validated against the handler's parameter model before the handler
    runs (on a failure the handler is not called and the answer is a
    422 that lists the violations, each with the input it is about),
    an omitted query parameter takes the default of the handler's
    signature, the returned value is validated against the route's
    [response_model], an [HTTPException] becomes a response with its
    status code and detail, and any other exception a plain 500.  The
    body of an answer is written as JSON, which has no NaN and no
    infinity: a 422 whose violations echo one cannot be written, and
    the answer is the plain 500 instead. *)

Inductive Response (A : Type) : Type :=
| HTTP200 (body : A)
| HTTP422 (detail : list violation)
| HTTPError (status_code : Z) (detail : string)
| InternalServerError.
Arguments HTTP200 {A} body.
Arguments HTTP422 {A} detail.
Arguments HTTPError {A} status_code detail.
Arguments InternalServerError {A}.

(** An exception that no handler catches. *)
Definition uncaught {S A} (m : Py S exn A) : Py S raised A :=
  try_except m (λ e, raise (Plain e)).

(** [response_model=model] *)
Definition respond_one `{EmailValidator} (model : schema) (r : document)
  : Response document :=
  match validate model r with
  | inr out => HTTP200 out
  | inl _ => InternalServerError
  end.

(** All the records if every one is valid, else nothing. *)
Fixpoint validate_all `{EmailValidator} (model : schema) (rs : list document)
  : option (list document) :=
  match rs with
  | [] => Some []
  | r :: rs' =>
    match validate model r, validate_all model rs' with
    | inr out, Some outs => Some (out :: outs)
    | _, _ => None
    end
  end.

(** [response_model=List[model]] *)
Definition respond_list `{EmailValidator} (model : schema) (rs : list document)
  : Response (list document) :=
  match validate_all model rs with
  | Some outs => HTTP200 outs
  | None => InternalServerError
  end.

Definition serve {A B} (respond : A → Response B) (handler : Py World raised A)
  : World → Response B * World :=
  λ w, match handler w with
       | (Ok a, w') => (respond a, w')
       | (Raise (HTTPException status_code detail), w') =>
         (HTTPError status_code detail, w')
       | (Raise (Plain _), w') => (InternalServerError, w')
       end.

(** A value that JSON can carry: no NaN or infinity in it. *)
Fixpoint json_finite (v : value) : bool :=
  match v with
  | VNum x => PrimFloat.is_finite x
  | VList l => forallb json_finite l
  | _ => true
  end.

(** The input a violation echoes: the whole body for a missing field,
    else the value given for the field. *)
Definition echoed (body : document) (v : violation) : list value :=
  match v.2 with
  | missing => (map_to_list body).*2
  | _ => option_list (body !! v.1)
  end.

(** The detail of the 422 can be written. *)
Definition writable (body : document) (errs : list violation) : bool :=
  forallb (λ v, forallb json_finite (echoed body v)) errs.

(** The answer to a body that fails its model: the 422 whose detail
    lists the violations, each with the input it was found on.  The
    detail is written as JSON with NaN and the infinities refused; when
    it cannot be written, the failure escapes the framework's handler
    and the answer is the plain 500. *)
Definition rejection {B} (body : document) (errs : list violation)
  : Response B :=
  if writable body errs then HTTP422 errs else InternalServerError.

(** A route with a body parameter. *)
Definition with_body `{EmailValidator} {B} (model : schema)
  (route : document → World → Response B * World) (body : document)
  : World → Response B * World :=
  λ w, match validate model body with
       | inl errs => (rejection body errs, w)
       | inr m => route m w
       end.

(** A query parameter: the supplied value, else the default. *)
Definition query {A} (default : A) (supplied : option A) : A :=
  from_option id default supplied.

(** *** The diagnostic endpoint *)

(** [response[key] = v] *)
Definition setitem {E} (key : string) (v : value) : Py document E unit :=
  modify (<[key := v]>).

(** Truthiness of [os.getenv(..)]: set and not empty. *)
Definition truthy (o : option string) : bool :=
  match o with
  | Some s => negb (String.eqb s "")
  | None => false
  end.

(** [db.name if hasattr(db, 'name') else "✅ Connected"]: [hasattr]
    answers False for an attribute that is absent or whose getter
    raises an [AttributeError], and lets any other exception through. *)
Definition name_or_connected {S} (d : Database) : Py S exn value :=
  match name d with
  | NoAttr => ret (VStr "✅ Connected")
  | Attr v => ret v
  | AttrRaises e =>
    if is_attribute_error e then ret (VStr "✅ Connected") else raise e
  end.

Definition lift {S E A} (r : result E A) : Py S E A :=
  match r with
  | Ok a => ret a
  | Raise e => raise e
  end.

Definition test_database : Py World exn document := λ w,
  let response : document :=
    {[ "backend" := VStr "✅ Running";
       "database" := VStr "❌ Not Available";
       "database_url" := VNone;
       "database_name" := VNone;
       "connection_status" := VStr "Not Connected";
       "collections" := VList [] ]} in
  (((try_except
          (match db w with
           | Some d =>
             setitem "database" (VStr "✅ Available") ;;;
             setitem "database_url"
               (VStr (if truthy (getenv w "DATABASE_URL")
                      then "✅ Set" else "❌ Not Set")) ;;;
             n <~ name_or_connected d ;;
             setitem "database_name" n ;;;
             setitem "connection_status" (VStr "Connected") ;;;
             try_except
               (collections <~ lift (list_collection_names d) ;;
                setitem "collections" (VList (VStr <$> take 20 collections)) ;;;
                setitem "database" (VStr "✅ Connected & Working"))
               (λ e, setitem "database"
                       (VStr ("⚠️ Connected but Error: "
                              ++ first_chars 80 (str e))))
           | None =>
             setitem "database" (VStr "⚠️ Available but not initialized")
           end)
          (λ e, setitem (E := exn) "database"
                  (VStr ("❌ Error: " ++ first_chars 120 (str e)))) ;;;
        get)%py response).1, w).

(** [GET /test] *)
Definition GET_test : World → Response document * World :=
  serve HTTP200 (uncaught test_database).

(** *** Public content listing endpoints *)

(** [for d in docs: d.pop("_id", None)] *)
Definition pop_ids (docs : list document) : list document :=
  delete "_id" <$> docs.

Definition list_programs (limit : option Z) (published_only : bool)
  : Py World exn (list document) :=
  (let filter_q : document := ∅ in
   let filter_q :=
     if published_only then <["status" := VStr "published"]> filter_q
     else filter_q in
   docs <~ get_documents "program" filter_q limit ;;
   ret (pop_ids docs))%py.

Definition list_stories (limit : option Z) (published_only : bool)
  : Py World exn (list document) :=
  (let filter_q : document :=
     if published_only then {[ "status" := VStr "published" ]} else ∅ in
   docs <~ get_documents "story" filter_q limit ;;
   ret (pop_ids docs))%py.

Definition list_posts (limit : option Z) (published_only : bool)
  : Py World exn (list document) :=
  (let filter_q : document :=
     if published_only then {[ "status" := VStr "published" ]} else ∅ in
   docs <~ get_documents "post" filter_q limit ;;
   ret (pop_ids docs))%py.

(** [GET /api/programs], [GET /api/stories], [GET /api/posts]: the
    arguments are the query parameters as supplied, None when omitted. *)
Definition GET_api_programs `{EmailValidator}
  (limit : option Z) (published_only : option bool) :=
  serve (respond_list Program)
    (uncaught (list_programs (query (Some 20) (Some <$> limit))
                             (query true published_only))).

Definition GET_api_stories `{EmailValidator}
  (limit : option Z) (published_only : option bool) :=
  serve (respond_list Story)
    (uncaught (list_stories (query (Some 12) (Some <$> limit))
                            (query true published_only))).

Definition GET_api_posts `{EmailValidator}
  (limit : option Z) (published_only : option bool) :=
  serve (respond_list Post)
    (uncaught (list_posts (query (Some 12) (Some <$> limit))
                          (query true published_only))).

(** *** Intake / forms endpoints *)

Definition create_donation (intent : document) : Py World raised document :=
  try_except
    (inserted_id <~ create_document "donationintent" intent ;;
     ret {[ "id" := VStr inserted_id;
            "message" := VStr "Donation intent recorded" ]})%py
    (λ e, raise (HTTPException 500 (str e))).

Definition create_volunteer (apply : document) : Py World raised document :=
  try_except
    (inserted_id <~ create_document "volunteerapplication" apply ;;
     ret {[ "id" := VStr inserted_id;
            "message" := VStr "Volunteer application received" ]})%py
    (λ e, raise (HTTPException 500 (str e))).

Definition create_partner (inquiry : document) : Py World raised document :=
  try_except
    (inserted_id <~ create_document "partnerinquiry" inquiry ;;
     ret {[ "id" := VStr inserted_id;
            "message" := VStr "Partner inquiry submitted" ]})%py
    (λ e, raise (HTTPException 500 (str e))).

Definition create_contact (msg : document) : Py World raised document :=
  try_except
    (inserted_id <~ create_document "contactmessage" msg ;;
     ret {[ "id" := VStr inserted_id;
            "message" := VStr "Message received" ]})%py
    (λ e, raise (HTTPException 500 (str e))).

(** [POST /api/donations], [/api/volunteers], [/api/partners],
    [/api/contact] *)
Definition POST_api_donations `{EmailValidator} :=
  with_body DonationIntent (λ m, serve (respond_one Created) (create_donation m)).

Definition POST_api_volunteers `{EmailValidator} :=
  with_body VolunteerApplication
    (λ m, serve (respond_one Created) (create_volunteer m)).

Definition POST_api_partners `{EmailValidator} :=
  with_body PartnerInquiry (λ m, serve (respond_one Created) (create_partner m)).

Definition POST_api_contact `{EmailValidator} :=
  with_body ContactMessage (λ m, serve (respond_one Created) (create_contact m)).

(** ** The two families of routes

    The three listing routes and the four intake routes, indexed so
    that a statement can range over a family. *)

Inductive content : Type := programs | stories | posts.

Definition content_collection (c : content) : string :=
  match c with
  | programs => "program"
  | stories => "story"
  | posts => "post"
  end.

Definition content_model (c : content) : schema :=
  match c with
  | programs => Program
  | stories => Story
  | posts => Post
  end.

Definition content_default_limit (c : content) : Z :=
  match c with
  | programs => 20
  | stories => 12
  | posts => 12
  end.

Definition list_content (c : content)
  : option Z → bool → Py World exn (list document) :=
  match c with
  | programs => list_programs
  | stories => list_stories
  | posts => list_posts
  end.

Definition GET_api `{EmailValidator} (c : content)
  : option Z → option bool → World → Response (list document) * World :=
  match c with
  | programs => GET_api_programs
  | stories => GET_api_stories
  | posts => GET_api_posts
  end.

Inductive form : Type := donations | volunteers | partners | contact.

Definition form_collection (f : form) : string :=
  match f with
  | donations => "donationintent"
  | volunteers => "volunteerapplication"
  | partners => "partnerinquiry"
  | contact => "contactmessage"
  end.

Definition form_model (f : form) : schema :=
  match f with
  | donations => DonationIntent
  | volunteers => VolunteerApplication
  | partners => PartnerInquiry
  | contact => ContactMessage
  end.

(** The consent or compliance-acknowledgement field of a form. *)
Definition consent_field (f : form) : string :=
  match f with
  | partners => "compliance_ack"
  | _ => "consent"
  end.

Definition POST_api `{EmailValidator} (f : form)
  : document → World → Response document * World :=
  match f with
  | donations => POST_api_donations
  | volunteers => POST_api_volunteers
  | partners => POST_api_partners
  | contact => POST_api_contact
  end.

(** ** Vocabulary of the statements *)

(** The field of a model with a given name. *)
Definition field_named (model : schema) (key : string) : option field :=
  head (filter (λ f, f_name f = key) model).

Definition field_names (model : schema) : list string := f_name <$> model.

(** An annotation without [EmailStr]. *)
Fixpoint email_free (t : annotation) : bool :=
  match t with
  | EmailStr => false
  | ListOf t' | Optional t' => email_free t'
  | _ => true
  end.

(** The default of a field, if it has one, passes the field's own
    checks unchanged. *)
Definition default_passes `{EmailValidator} (f : field) : Prop :=
  ∀ v, check_field f ∅ = inr v →
       validate_type (f_type f) v = inr v ∧ check_gt (f_gt f) v = inr v.

Definition published (d : document) : Prop :=
  d !! "status" = Some (VStr "published").

Definition draft (d : document) : Prop :=
  d !! "status" = Some (VStr "draft").

#[global] Instance published_dec d : Decision (published d).
Proof. unfold published. apply _. Defined.

(** A body that carries no NaN and no infinity. *)
Definition body_finite (body : document) : Prop :=
  map_Forall (λ _ v, json_finite v = true) body.

#[global] Instance body_finite_dec body : Decision (body_finite body).
Proof. unfold body_finite. apply _. Defined.

(** Reading the name of the handle raises nothing that [hasattr] lets
    through. *)
Definition name_is_read (d : Database) : Prop :=
  ∀ e, name d = AttrRaises e → is_attribute_error e = true.

(** The [database] field of the report when the name was read: by the
    outcome of listing the collections. *)
Definition working_line (d : Database) : string :=
  match fault d with
  | Some text => "⚠️ Connected but Error: " ++ first_chars 80 text
  | None => "✅ Connected & Working"
  end.

(** The [database] field of the report, state by state. *)
Definition database_line (w : World) : string :=
  match db w with
  | None => "⚠️ Available but not initialized"
  | Some d =>
    match name d with
    | AttrRaises e =>
      if is_attribute_error e then working_line d
      else "❌ Error: " ++ first_chars 120 (str e)
    | _ => working_line d
    end
  end.

(** The store refuses: no connection, or a fault of the server. *)
Definition store_error (w : World) : option exn :=
  match db w with
  | None => Some StoreUnavailableError
  | Some d => Exception <$> fault d
  end.

(** The records of a collection, in insertion order. *)
Definition stored (w : World) (collection_name : string) : list document :=
  match db w with
  | None => []
  | Some d => collections d !!! collection_name
  end.

(** [v] is none of the texts of [choices]. *)
Definition outside (choices : list string) (v : value) : Prop :=
  v ∉ (VStr <$> choices).

#[global] Instance outside_dec choices v : Decision (outside choices v).
Proof. unfold outside. apply _. Defined.

(** A record that the model accepts once its [_id] is removed. *)
Definition presentable `{EmailValidator} (model : schema) (d : document) : Prop :=
  ∃ r, validate model (delete "_id" d) = inr r.

(** The published records of a collection, in store order. *)
Definition published_in (w : World) (c : content) : list document :=
  filter published (stored w (content_collection c)).

(** The filter a listing handler builds. *)
Definition filter_for (published_only : bool) : document :=
  if published_only then {[ "status" := VStr "published" ]} else ∅.

(** ** Sample data for the examples

    [one_at_sign] stands in for the e-mail library where an example has
    to run: it accepts a text of the form local@domain, both parts
    non-empty and the domain without another at-sign. *)

Fixpoint split_at_sign (s : string) : option (string * string) :=
  match s with
  | EmptyString => None
  | String c s' =>
    if Ascii.eqb c "@"%char then Some (EmptyString, s')
    else match split_at_sign s' with
         | Some (l, r) => Some (String c l, r)
         | None => None
         end
  end.

Definition one_at_sign : EmailValidator := λ s,
  match split_at_sign s with
  | Some (l, r) =>
    if negb (String.eqb l "") && negb (String.eqb r "")
       && negb (bool_decide (is_Some (split_at_sign r)))
    then Some s else None
  | None => None
  end.

Definition empty_db : Database :=
  {| name := Attr (VStr "caprecon"); collections := ∅;
     next_oid := 0; fault := None |}.

Definition world_of (d : option Database) : World :=
  {| db := d; environ := ∅; calls := [] |}.

Definition story (n : nat) (status : string) : document :=
  {[ "_id" := VObjectId (oid_of n);
     "title" := VStr ("Story " ++ pretty n);
     "status" := VStr status ]}.

(** Five published stories and a draft. *)
Definition stories_db : Database :=
  {| name := Attr (VStr "caprecon");
     collections :=
       {[ "story" := [ story 0 "published"; story 1 "draft";
                       story 2 "published"; story 3 "published";
                       story 4 "published"; story 5 "published" ] ]};
     next_oid := 6; fault := None |}.

(** A story of the sample store as the [Story] model presents it. *)
Definition story_view (n : nat) (status : string) : document :=
  {[ "title" := VStr ("Story " ++ pretty n);
     "excerpt" := VNone; "body" := VNone; "program_tags" := VList [];
     "author" := VNone; "location" := VNone;
     "status" := VStr status ]}.

Definition program_record : document :=
  {[ "title" := VStr "Clean water";
     "summary" := VStr "Boreholes for rural schools";
     "problem_context" := VNone;
     "approach" := VStr "Community-managed boreholes";
     "activities" := VList [VStr "Drilling"; VStr "Training"];
     "beneficiaries" := VList [];
     "expected_impact" := VNone;
     "locations" := VList [VStr "Kano"];
     "tags" := VList [];
     "status" := VStr "draft" ]}.

Definition refused_text : string :=
  "localhost:27017: [Errno 111] Connection refused (configured timeouts: socketTimeoutMS: 20000.0ms, connectTimeoutMS: 20000.0ms), Timeout: 30s".

Definition refusing_db : Database :=
  {| name := Attr (VStr "caprecon"); collections := ∅;
     next_oid := 0; fault := Some refused_text |}.

Definition partner_body : document :=
  {[ "organization" := VStr "Water Aid"; "contact_name" := VStr "Ngozi Eze";
     "email" := VStr "ngozi@example.org"; "compliance_ack" := VBool true ]}.

(** The [PartnerInquiry] built from [partner_body]. *)
Definition partner_record : document :=
  {[ "organization" := VStr "Water Aid"; "partner_type" := VNone;
     "contact_name" := VStr "Ngozi Eze"; "email" := VStr "ngozi@example.org";
     "phone" := VNone; "country" := VNone; "collaboration_areas" := VNone;
     "message" := VNone; "compliance_ack" := VBool true;
     "status" := VStr "received" ]}.

Definition volunteer_body : document :=
  {[ "name" := VStr "Ada Okoro"; "email" := VStr "ada@example.org";
     "consent" := VBool true ]}.

Definition donation_body : document :=
  {[ "amount" := VNum 25%float; "first_name" := VStr "Ada";
     "last_name" := VStr "Okoro"; "email" := VStr "ada@example.org";
     "consent" := VBool true ]}.

(** The [DonationIntent] built from [donation_body]. *)
Definition donation_record : document :=
  {[ "amount" := VNum 25%float; "currency" := VStr "USD";
     "frequency" := VStr "one_time"; "fund" := VNone;
     "first_name" := VStr "Ada"; "last_name" := VStr "Okoro";
     "email" := VStr "ada@example.org"; "country" := VNone;
     "message" := VNone; "consent" := VBool true ]}.

(** ** Further vocabulary

    The rest of [schemas.py] that the annotations cover, and the names
    the statements on the handlers use. *)

(** [class Metric(BaseModel)]: declared for a future dashboard, used
    by no endpoint.  ([Report] has an integer field, [year], which the
    annotations above do not cover.) *)
Definition Metric : schema := [
  Field "key" TStr Required None;
  Field "label" TStr Required None;
  Field "value" TFloat Required None;
  Field "unit" (Optional TStr) (Default VNone) None;
  Field "period" (Optional TStr) (Default VNone) None
].

(** The confirmation message of a create handler. *)
Definition form_message (f : form) : string :=
  match f with
  | donations => "Donation intent recorded"
  | volunteers => "Volunteer application received"
  | partners => "Partner inquiry submitted"
  | contact => "Message received"
  end.

(** The records a listing fetches: the first [limit] of the collection,
    or of its published records. *)
Definition fetched (w : World) (c : content) (limit : Z)
  (published_only : bool) : list document :=
  take (Z.to_nat limit)
    (if published_only then published_in w c
     else stored w (content_collection c)).

(** The keys of the diagnostic report. *)
Definition report_keys : gset string :=
  {[ "backend"; "database"; "database_url"; "database_name";
     "connection_status"; "collections" ]}.

(** A program without a title, as a store may hold it. *)
Definition untitled_program : document :=
  {[ "_id" := VObjectId "7"; "summary" := VStr "No title yet";
     "status" := VStr "published" ]}.

Definition untitled_db : Database :=
  {| name := Attr (VStr "caprecon");
     collections := {[ "program" := [untitled_program] ]};
     next_oid := 8; fault := None |}.

(** A handle whose [name] raises, and one whose [name] raises an
    [AttributeError]. *)
Definition nameless_db : Database :=
  {| name := AttrRaises (Exception "name is not available");
     collections := ∅; next_oid := 0; fault := None |}.

Definition hidden_name_db : Database :=
  {| name := AttrRaises (AttributeError "name");
     collections := ∅; next_oid := 0; fault := None |}.

(** A world with the connection string set. *)
Definition configured_world (d : Database) : World :=
  {| db := Some d;
     environ := {[ "DATABASE_URL" := "mongodb://localhost:27017" ]};
     calls := [] |}.

(** The [VolunteerApplication] built from [volunteer_body]. *)
Definition volunteer_record : document :=
  {[ "name" := VStr "Ada Okoro"; "email" := VStr "ada@example.org";
     "phone" := VNone; "location" := VNone; "role_interest" := VNone;
     "availability" := VNone; "experience" := VNone; "references" := VNone;
     "consent" := VBool true; "status" := VStr "received" ]}.

(** The report of the diagnostic handler in a state. *)
Definition report_of (w : World) : option document :=
  match test_database w with
  | (Ok report, _) => Some report
  | (Raise _, _) => None
  end.

(** The names [db.list_collection_names()] gives when it succeeds. *)
Definition collection_names (d : Database) : list string :=
  map fst (map_to_list (collections d)).

(** ** Proof automation *)

(** A closed equation, decided by evaluating both sides. *)
Ltac by_computation :=
  lazymatch goal with
  | |- @eq ?A _ ?r => vm_cast_no_check (@eq_refl A r)
  | |- _ => vm_compute; reflexivity
  end.

Ltac field_of_model :=
  repeat first [ apply list_elem_of_here | apply list_elem_of_further ].

(** ** The store adapter *)

Lemma store_error_log c w : store_error (log c w) = store_error w.
Proof. reflexivity. Qed.

Lemma create_document_refused collection_name data w e :
  store_error w = Some e →
  create_document collection_name data w
  = (Raise e, log (Insert collection_name data) w).
Proof.
  unfold store_error, create_document, bind, modify, get, raise. simpl.
  destruct (db w) as [d|]; simpl.
  - destruct (fault d); simpl; intros [= <-]; reflexivity.
  - intros [= <-]. reflexivity.
Qed.

Lemma get_documents_refused collection_name q limit w e :
  store_error w = Some e →
  get_documents collection_name q limit w
  = (Raise e, log (Find collection_name q limit) w).
Proof.
  unfold store_error, get_documents, bind, modify, get, raise. simpl.
  destruct (db w) as [d|]; simpl.
  - destruct (fault d); simpl; intros [= <-]; reflexivity.
  - intros [= <-]. reflexivity.
Qed.

Lemma get_documents_served collection_name q limit w :
  store_error w = None →
  get_documents collection_name q limit w
  = (Ok (up_to limit (filter (doc_matches q) (stored w collection_name))),
     log (Find collection_name q limit) w).
Proof.
  unfold store_error, stored, get_documents, bind, modify, get, raise, ret.
  simpl. destruct (db w) as [d|]; simpl; [|discriminate].
  destruct (fault d); simpl; [discriminate|]. reflexivity.
Qed.

Lemma doc_matches_status d :
  doc_matches {[ "status" := VStr "published" ]} d ↔ published d.
Proof. unfold doc_matches, published. by rewrite map_Forall_singleton. Qed.

Lemma doc_matches_empty d : doc_matches ∅ d.
Proof. apply map_Forall_empty. Qed.

Lemma filter_published (l : list document) :
  filter (doc_matches {[ "status" := VStr "published" ]}) l = filter published l.
Proof. apply list_filter_iff. intros d. apply doc_matches_status. Qed.

Lemma filter_everything (l : list document) :
  filter (doc_matches ∅) l = l.
Proof.
  induction l as [|d l IH]; [reflexivity|].
  rewrite filter_cons_True by apply doc_matches_empty. by rewrite IH.
Qed.

(** ** The validation layer *)

Section Validation.
Context `{EmailValidator}.

Lemma validate_fields_problem fs raw f p :
  f ∈ fs → check_field f raw = inl p →
  (f_name f, p) ∈ (validate_fields fs raw).1.
Proof.
  induction fs as [|g fs IH]; intros Hin Hp; [by apply elem_of_nil in Hin|].
  simpl. destruct (validate_fields fs raw) as [errs m] eqn:E.
  apply elem_of_cons in Hin as [->|Hin].
  - rewrite Hp. simpl. apply elem_of_cons. by left.
  - specialize (IH Hin Hp). simpl in IH.
    destruct (check_field g raw); simpl; [apply elem_of_cons; by right|done].
Qed.

Lemma validate_fields_absent fs raw key :
  key ∉ field_names fs → (validate_fields fs raw).2 !! key = None.
Proof.
  induction fs as [|g fs IH]; intros Hk; simpl; [apply lookup_empty|].
  unfold field_names in Hk. rewrite fmap_cons in Hk.
  apply not_elem_of_cons in Hk as [Hne Hk]. specialize (IH Hk).
  destruct (validate_fields fs raw) as [errs m]. simpl in IH.
  destruct (check_field g raw); simpl; [done|].
  by rewrite lookup_insert_ne.
Qed.

Lemma validate_fields_value fs raw f v :
  NoDup (field_names fs) → f ∈ fs → check_field f raw = inr v →
  (validate_fields fs raw).2 !! f_name f = Some v.
Proof.
  induction fs as [|g fs IH]; intros Hnd Hin Hv; [by apply elem_of_nil in Hin|].
  unfold field_names in Hnd. rewrite fmap_cons in Hnd.
  apply NoDup_cons in Hnd as [Hg Hnd]. simpl.
  destruct (validate_fields fs raw) as [errs m] eqn:E.
  apply elem_of_cons in Hin as [->|Hin].
  - rewrite Hv. simpl. apply lookup_insert_eq.
  - specialize (IH Hnd Hin Hv). simpl in IH.
    assert (f_name g ≠ f_name f) as Hne.
    { intros Heq. apply Hg. rewrite Heq. by apply list_elem_of_fmap_2. }
    destruct (check_field g raw); simpl; [done|].
    by rewrite lookup_insert_ne.
Qed.

Lemma validate_fields_checked fs raw f :
  (validate_fields fs raw).1 = [] → f ∈ fs →
  ∃ v, check_field f raw = inr v.
Proof.
  intros Hnil Hin. destruct (check_field f raw) as [p|v] eqn:E; [|by eexists].
  pose proof (validate_fields_problem fs raw f p Hin E) as Hp.
  rewrite Hnil in Hp. by apply elem_of_nil in Hp.
Qed.

(** The result depends on the input through the fields' checks only. *)
Lemma validate_fields_ext fs raw1 raw2 :
  (∀ f, f ∈ fs → check_field f raw1 = check_field f raw2) →
  validate_fields fs raw1 = validate_fields fs raw2.
Proof.
  induction fs as [|g fs IH]; intros Hext; [reflexivity|]. simpl.
  rewrite IH, (Hext g).
  - reflexivity.
  - apply elem_of_cons. by left.
  - intros f Hf. apply Hext. apply elem_of_cons. by right.
Qed.

Lemma validate_inr model raw m :
  validate model raw = inr m ↔ validate_fields model raw = ([], m).
Proof.
  unfold validate. destruct (validate_fields model raw) as [[|e errs] m'].
  - split; congruence.
  - split; intros; discriminate.
Qed.

Lemma validate_inl model raw errs :
  validate model raw = inl errs ↔
  (validate_fields model raw).1 = errs ∧ errs ≠ [].
Proof.
  unfold validate. destruct (validate_fields model raw) as [[|e errs'] m']; simpl.
  - split; [discriminate|]. intros [<- ?]. done.
  - split; [intros [= <-]; done|]. intros [<- _]. done.
Qed.

(** A field that fails its check fails the model, and is reported. *)
Lemma validate_rejects model raw f p :
  f ∈ model → check_field f raw = inl p →
  ∃ errs, validate model raw = inl errs ∧ (f_name f, p) ∈ errs.
Proof.
  intros Hin Hp. pose proof (validate_fields_problem model raw f p Hin Hp) as He.
  exists (validate_fields model raw).1. split; [|done].
  apply validate_inl. split; [done|].
  intros Hnil. rewrite Hnil in He. by apply elem_of_nil in He.
Qed.

(** A model instance has the declared fields and no other. *)
Lemma validate_no_extra model raw m key :
  validate model raw = inr m → key ∉ field_names model → m !! key = None.
Proof.
  intros Hv Hk. apply validate_inr in Hv.
  pose proof (validate_fields_absent model raw key Hk) as Ha.
  by rewrite Hv in Ha.
Qed.

Lemma validate_field_value model raw m f v :
  NoDup (field_names model) → f ∈ model →
  validate model raw = inr m → check_field f raw = inr v →
  m !! f_name f = Some v.
Proof.
  intros Hnd Hin Hv Hc. apply validate_inr in Hv.
  pose proof (validate_fields_value model raw f v Hnd Hin Hc) as Ha.
  by rewrite Hv in Ha.
Qed.

(** *** A model instance validates to itself *)

Lemma check_gt_inr bound v v' : check_gt bound v = inr v' → v' = v.
Proof.
  unfold check_gt. destruct bound as [b|]; [|congruence].
  destruct v; try congruence. destruct (PrimFloat.ltb b x); congruence.
Qed.

Lemma collect_inr_idem (check : value → problem + value) l vs :
  (∀ v v', check v = inr v' → check v' = inr v') →
  collect (map check l) = inr vs → collect (map check vs) = inr vs.
Proof.
  intros Hidem. revert vs.
  induction l as [|v l IH]; intros vs; simpl; [by intros [= <-]|].
  destruct (check v) as [p|v'] eqn:Hv; [discriminate|].
  destruct (collect (map check l)) as [p|vs'] eqn:Hl; [discriminate|].
  intros [= <-]. simpl. by rewrite (Hidem _ _ Hv), (IH vs' eq_refl).
Qed.

Lemma validate_type_idem t v v' :
  email_free t = true →
  validate_type t v = inr v' → validate_type t v' = inr v'.
Proof.
  revert v v'. induction t as [| | | |t IH|choices|t IH]; intros v v' Hfree.
  - destruct v; simpl; try discriminate. by intros [= <-].
  - destruct v; simpl; try discriminate. by intros [= <-].
  - destruct v; simpl; try discriminate. by intros [= <-].
  - discriminate.
  - destruct v as [| | | |l|]; simpl; try discriminate.
    destruct (collect (map (validate_type t) l)) as [p|vs] eqn:Hl;
      [discriminate|].
    intros [= <-]. simpl.
    by rewrite (collect_inr_idem (validate_type t) l vs
                  (λ v v', IH v v' Hfree) Hl).
  - destruct v as [| | |s| |]; simpl; try discriminate.
    case_decide as Hin; [|discriminate]. intros [= <-]. simpl.
    by rewrite decide_True.
  - destruct v; simpl; first [by intros [= <-] | idtac];
      intros Hv; pose proof (IH _ _ Hfree Hv) as Hv';
      destruct v'; simpl; first [reflexivity | exact Hv'].
Qed.

(** The record built from an input is a fixed point of validation,
    for a model without e-mail fields whose defaults pass its own
    checks: validating it again changes nothing. *)
Lemma validate_idem model raw p :
  NoDup (field_names model) →
  Forall (λ f, email_free (f_type f) = true) model →
  Forall default_passes model →
  validate model raw = inr p → validate model p = inr p.
Proof.
  intros Hnd Hfree Hdef Hv. apply validate_inr.
  pose proof (proj1 (validate_inr _ _ _) Hv) as Hv'. rewrite <- Hv'.
  apply validate_fields_ext. intros f Hf.
  destruct (validate_fields_checked model raw f) as [v Hc];
    [by rewrite Hv'|done|].
  pose proof (validate_field_value model raw p f v Hnd Hf Hv Hc) as Hpv.
  rewrite Hc. unfold check_field in *. rewrite Hpv.
  rewrite Forall_forall in Hfree, Hdef.
  destruct (raw !! f_name f) as [v0|] eqn:Hraw.
  - destruct (validate_type (f_type f) v0) as [q|v1] eqn:Ht; [discriminate|].
    pose proof (check_gt_inr _ _ _ Hc) as ->.
    by rewrite (validate_type_idem _ _ _ (Hfree f Hf) Ht).
  - destruct (Hdef f Hf v) as [Ht Hg].
    { unfold check_field. by rewrite lookup_empty. }
    by rewrite Ht.
Qed.

Lemma validate_fields_problem_inv fs raw key p :
  (key, p) ∈ (validate_fields fs raw).1 →
  ∃ f, f ∈ fs ∧ f_name f = key ∧ check_field f raw = inl p.
Proof.
  induction fs as [|g fs IH]; simpl; [by intros ?%elem_of_nil|].
  destruct (validate_fields fs raw) as [errs m]. simpl in IH.
  destruct (check_field g raw) as [q|v] eqn:Hg; simpl.
  - intros [Heq|Hin]%elem_of_cons.
    + injection Heq as -> ->. exists g. split; [apply list_elem_of_here|done].
    + destruct (IH Hin) as (f & Hf & Hn & Hc). exists f.
      split; [by apply list_elem_of_further|done].
  - intros Hin. destruct (IH Hin) as (f & Hf & Hn & Hc). exists f.
    split; [by apply list_elem_of_further|done].
Qed.

(** A body without NaN or infinity. *)
Lemma writable_finite_body body errs :
  body_finite body → writable body errs = true.
Proof.
  intros Hfinite. unfold writable. apply forallb_forall. intros [key p] _.
  apply forallb_forall. intros v Hv. apply list_elem_of_In in Hv.
  assert (∀ k, body !! k = Some v → json_finite v = true) as Hlookup
    by (intros k Hk; exact (Hfinite k v Hk)).
  unfold echoed in Hv. simpl in Hv.
  assert (v ∈ (map_to_list body).*2 → json_finite v = true) as Hall.
  { intros Hin. apply list_elem_of_fmap in Hin as ([k v'] & -> & Hin).
    apply elem_of_map_to_list in Hin. by apply (Hlookup k). }
  assert (v ∈ option_list (body !! key) → json_finite v = true) as Hone.
  { destruct (body !! key) as [v'|] eqn:Hk; simpl.
    - intros ->%list_elem_of_singleton. by apply (Hlookup key).
    - by intros ?%elem_of_nil. }
  destruct p; auto.
Qed.

(** A violation that echoes a NaN or an infinity. *)
Lemma unwritable_value body errs key p v :
  (key, p) ∈ errs → p ≠ missing →
  body !! key = Some v → json_finite v = false →
  writable body errs = false.
Proof.
  intros Hin Hp Hbody Hv. unfold writable.
  destruct (forallb _ errs) eqn:Hall; [|reflexivity].
  rewrite forallb_forall in Hall.
  specialize (Hall (key, p) (proj1 (list_elem_of_In _ _) Hin)).
  unfold echoed in Hall. simpl in Hall. rewrite Hbody in Hall.
  destruct p; simpl in Hall; try done; rewrite Hv in Hall; discriminate.
Qed.

Lemma unwritable_body body errs key k v :
  (key, missing) ∈ errs →
  body !! k = Some v → json_finite v = false →
  writable body errs = false.
Proof.
  intros Hin Hbody Hv. unfold writable.
  destruct (forallb _ errs) eqn:Hall; [|reflexivity].
  rewrite forallb_forall in Hall.
  specialize (Hall (key, missing) (proj1 (list_elem_of_In _ _) Hin)).
  unfold echoed in Hall. simpl in Hall. rewrite forallb_forall in Hall.
  rewrite (Hall v) in Hv; [discriminate|].
  apply list_elem_of_In, list_elem_of_fmap. exists (k, v).
  split; [reflexivity|]. by apply elem_of_map_to_list.
Qed.

(** The request body is validated before the handler runs: for a body
    that fails, the handler is not called, the state is left as it
    was, and the answer is the 422 or, when that cannot be written,
    the plain 500. *)
Lemma with_body_rejects {B} model
  (route : document → World → Response B * World) body w f p :
  f ∈ model → check_field f body = inl p →
  ∃ errs, validate model body = inl errs
          ∧ (f_name f, p) ∈ errs
          ∧ with_body model route body w = (rejection body errs, w).
Proof.
  intros Hin Hp. destruct (validate_rejects model body f p Hin Hp) as (errs & Hv & He).
  exists errs. split; [done|]. split; [done|]. unfold with_body. by rewrite Hv.
Qed.

Lemma rejection_finite {B} body errs :
  body_finite body → @rejection B body errs = HTTP422 errs.
Proof. intros Hf. unfold rejection. by rewrite (writable_finite_body _ _ Hf). Qed.

Lemma POST_api_unfold f body w :
  POST_api f body w
  = with_body (form_model f)
      (λ m, serve (respond_one Created)
              (try_except
                 (inserted_id <~ create_document (form_collection f) m ;;
                  ret {[ "id" := VStr inserted_id;
                         "message" := VStr match f with
                                           | donations => "Donation intent recorded"
                                           | volunteers => "Volunteer application received"
                                           | partners => "Partner inquiry submitted"
                                           | contact => "Message received"
                                           end ]})%py
                 (λ e, raise (HTTPException 500 (str e))))) body w.
Proof. destruct f; reflexivity. Qed.

End Validation.

(** ** Intake forms: what validation rejects *)




(** C4. On each of the four intake routes, a body without the consent
    field (for partners, the compliance acknowledgement) fails
    validation: [missing] is reported on that field, the handler is
    not run and the state is left as it was; the field is declared
    without a default.  The answer is the 422 that lists the
    violations, or the plain 500 when the body, which a missing field
    echoes whole, holds a NaN or an infinity. *)
Theorem consent_is_mandatory `{EmailValidator} f body w :
  body !! consent_field f = None →
  (∃ errs,
     validate (form_model f) body = inl errs
     ∧ (consent_field f, missing) ∈ errs
     ∧ POST_api f body w
       = (if writable body errs then HTTP422 errs else InternalServerError, w)
     ∧ (body_finite body → POST_api f body w = (HTTP422 errs, w)))
  ∧ f_default <$> field_named (form_model f) (consent_field f) = Some Required.
Proof.
  intros Hbody. split; [|by destruct f].
  destruct (with_body_rejects (form_model f)
              (λ m, serve (respond_one Created)
                      (try_except
                         (inserted_id <~ create_document (form_collection f) m ;;
                          ret {[ "id" := VStr inserted_id;
                                 "message" := VStr match f with
                                                   | donations => "Donation intent recorded"
                                                   | volunteers => "Volunteer application received"
                                                   | partners => "Partner inquiry submitted"
                                                   | contact => "Message received"
                                                   end ]})%py
                         (λ e, raise (HTTPException 500 (str e))))) body w
              (Field (consent_field f) TBool Required None) missing)
    as (errs & Hv & Hin & Hrun).
  - destruct f; field_of_model.
  - unfold check_field. simpl. by rewrite Hbody.
  - exists errs. split; [exact Hv|]. split; [exact Hin|].
    rewrite POST_api_unfold. split; [exact Hrun|]. intros Hfinite.
    by rewrite Hrun, rejection_finite.
Qed.

Lemma consent_is_mandatory_witness :
  POST_api (H := one_at_sign) donations
    (delete "consent" donation_body) (world_of None)
  = (HTTP422 [("consent", missing)], world_of None)
  ∧ f_default <$> field_named DonationIntent "consent" = Some Required.
Proof.
  destruct (consent_is_mandatory (H := one_at_sign) donations
              (delete "consent" donation_body) (world_of None))
    as [(errs & Hv & _ & _ & Hrun) Hdefault].
  - by_computation.
  - split; [|exact Hdefault].
    assert (validate (H := one_at_sign) DonationIntent
              (delete "consent" donation_body)
            = inl [("consent", missing)]) as Hv' by by_computation.
    change (form_model donations) with DonationIntent in Hv.
    rewrite Hv' in Hv. injection Hv as <-. apply Hrun.
    apply (bool_decide_unpack _). by_computation.
Defined.




(** A value outside the choices fails a [Literal]; under [Optional] it
    fails unless it is None. *)
Lemma literal_rejects `{EmailValidator} choices v :
  outside choices v → validate_type (Literal choices) v = inl literal_error.
Proof.
  intros Hout. destruct v as [|b|x|s|l|o]; try reflexivity.
  simpl. case_decide as Hin; [|reflexivity].
  exfalso. apply Hout. by apply list_elem_of_fmap_2.
Qed.

Lemma optional_literal_rejects `{EmailValidator} choices v :
  v ≠ VNone → outside choices v →
  validate_type (Optional (Literal choices)) v = inl literal_error.
Proof.
  intros Hnone Hout. destruct v; try done;
    exact (literal_rejects choices _ Hout).
Qed.

(** The field of a model that has a given name. *)
Ltac the_field Hf Hname :=
  repeat (apply elem_of_cons in Hf as [->|Hf];
          [first [ reflexivity | discriminate Hname ]|]);
  by apply elem_of_nil in Hf.

Lemma volunteer_status_field f :
  f ∈ VolunteerApplication → f_name f = "status" →
  f = Field "status"
        (Optional (Literal ["received"; "screening"; "accepted"; "declined"]))
        (Default (VStr "received")) None.
Proof. unfold VolunteerApplication. intros Hf Hname. the_field Hf Hname. Qed.

Lemma partner_status_field f :
  f ∈ PartnerInquiry → f_name f = "status" →
  f = Field "status"
        (Optional (Literal ["received"; "in_discussion"; "mou_draft"; "closed"]))
        (Default (VStr "received")) None.
Proof. unfold PartnerInquiry. intros Hf Hname. the_field Hf Hname. Qed.

(** A status given as None passes its check, and None is the status of
    the record built. *)
Lemma null_status_passes `{EmailValidator} model body choices default_status :
  NoDup (field_names model) →
  Field "status" (Optional (Literal choices)) default_status None ∈ model →
  (∀ f, f ∈ model → f_name f = "status" →
        f = Field "status" (Optional (Literal choices)) default_status None) →
  body !! "status" = Some VNone →
  (∀ errs p, validate model body = inl errs → ("status", p) ∉ errs)
  ∧ (∀ m, validate model body = inr m → m !! "status" = Some VNone).
Proof.
  intros Hnd Hfield Honly Hbody.
  assert (check_field (Field "status" (Optional (Literal choices))
                              default_status None) body = inr VNone) as Hc.
  { unfold check_field. simpl. by rewrite Hbody. }
  split.
  - intros errs p Hv Hin. apply validate_inl in Hv as [<- _].
    apply validate_fields_problem_inv in Hin as (f & Hf & Hname & Hp).
    rewrite (Honly f Hf Hname) in Hp. congruence.
  - intros m Hv.
    exact (validate_field_value model body m _ VNone Hnd Hfield Hv Hc).
Qed.

(** C8, as amended.  A [frequency] outside one_time, monthly fails
    validation, None included; a [status] of a volunteer application
    or of a partner inquiry that is not None and is outside the
    model's choices fails validation.  Each time [literal_error] is
    reported on the field, the handler is not run, the state is left
    as it was, and the answer is the 422, or the plain 500 when a
    violation echoes a NaN or an infinity.  A status given as None is
    accepted for both: it is never among the violations, and it is the
    status of the record built. *)
Theorem enumerations_are_checked `{EmailValidator} body w v :
  (body !! "frequency" = Some v → outside ["one_time"; "monthly"] v →
   ∃ errs,
     validate DonationIntent body = inl errs
     ∧ ("frequency", literal_error) ∈ errs
     ∧ POST_api_donations body w
       = (if writable body errs then HTTP422 errs else InternalServerError, w))
  ∧ (body !! "status" = Some v → v ≠ VNone →
     outside ["received"; "screening"; "accepted"; "declined"] v →
     ∃ errs,
       validate VolunteerApplication body = inl errs
       ∧ ("status", literal_error) ∈ errs
       ∧ POST_api_volunteers body w
         = (if writable body errs then HTTP422 errs else InternalServerError, w))
  ∧ (body !! "status" = Some v → v ≠ VNone →
     outside ["received"; "in_discussion"; "mou_draft"; "closed"] v →
     ∃ errs,
       validate PartnerInquiry body = inl errs
       ∧ ("status", literal_error) ∈ errs
       ∧ POST_api_partners body w
         = (if writable body errs then HTTP422 errs else InternalServerError, w))
  ∧ (body !! "status" = Some VNone →
     (∀ errs p, validate VolunteerApplication body = inl errs →
                ("status", p) ∉ errs)
     ∧ (∀ m, validate VolunteerApplication body = inr m →
             m !! "status" = Some VNone)
     ∧ (∀ errs p, validate PartnerInquiry body = inl errs →
                  ("status", p) ∉ errs)
     ∧ (∀ m, validate PartnerInquiry body = inr m →
             m !! "status" = Some VNone)).
Proof.
  split; [|split; [|split]].
  - intros Hbody Hout.
    apply (with_body_rejects DonationIntent _ body w
             (Field "frequency" (Literal ["one_time"; "monthly"])
                    (Default (VStr "one_time")) None) literal_error).
    + field_of_model.
    + unfold check_field. cbn [f_name f_type]. rewrite Hbody.
      by rewrite literal_rejects.
  - intros Hbody Hnone Hout.
    apply (with_body_rejects VolunteerApplication _ body w
             (Field "status"
                (Optional (Literal ["received"; "screening"; "accepted"; "declined"]))
                (Default (VStr "received")) None) literal_error).
    + field_of_model.
    + unfold check_field. cbn [f_name f_type]. rewrite Hbody.
      by rewrite optional_literal_rejects.
  - intros Hbody Hnone Hout.
    apply (with_body_rejects PartnerInquiry _ body w
             (Field "status"
                (Optional (Literal ["received"; "in_discussion"; "mou_draft"; "closed"]))
                (Default (VStr "received")) None) literal_error).
    + field_of_model.
    + unfold check_field. cbn [f_name f_type]. rewrite Hbody.
      by rewrite optional_literal_rejects.
  - intros Hbody.
    destruct (null_status_passes VolunteerApplication body
                ["received"; "screening"; "accepted"; "declined"]
                (Default (VStr "received"))) as [Hv1 Hv2];
      [apply (bool_decide_unpack _); vm_compute; exact I
      |field_of_model|apply volunteer_status_field|exact Hbody|].
    destruct (null_status_passes PartnerInquiry body
                ["received"; "in_discussion"; "mou_draft"; "closed"]
                (Default (VStr "received"))) as [Hp1 Hp2];
      [apply (bool_decide_unpack _); vm_compute; exact I
      |field_of_model|apply partner_status_field|exact Hbody|].
    done.
Qed.

Lemma enumerations_are_checked_witness :
  POST_api_donations (H := one_at_sign)
    (<["frequency" := VStr "weekly"]> donation_body) (world_of (Some empty_db))
  = (HTTP422 [("frequency", literal_error)], world_of (Some empty_db))
  ∧ POST_api_volunteers (H := one_at_sign)
      (<["status" := VStr "hired"]> volunteer_body) (world_of (Some empty_db))
    = (HTTP422 [("status", literal_error)], world_of (Some empty_db))
  ∧ validate (H := one_at_sign) PartnerInquiry
      (<["status" := VNone]> partner_body)
    = inr (<["status" := VNone]> partner_record).
Proof.
  split; [|split].
  - destruct (proj1 (enumerations_are_checked (H := one_at_sign)
                       (<["frequency" := VStr "weekly"]> donation_body)
                       (world_of (Some empty_db)) (VStr "weekly")))
      as (errs & Hv & _ & Hrun).
    + by_computation.
    + apply (bool_decide_unpack _). vm_compute. exact I.
    + assert (validate (H := one_at_sign) DonationIntent
                (<["frequency" := VStr "weekly"]> donation_body)
              = inl [("frequency", literal_error)]) as Hv' by by_computation.
      rewrite Hv' in Hv. injection Hv as <-. rewrite Hrun. by_computation.
  - destruct (proj1 (proj2 (enumerations_are_checked (H := one_at_sign)
                       (<["status" := VStr "hired"]> volunteer_body)
                       (world_of (Some empty_db)) (VStr "hired"))))
      as (errs & Hv & _ & Hrun).
    + by_computation.
    + discriminate.
    + apply (bool_decide_unpack _). vm_compute. exact I.
    + assert (validate (H := one_at_sign) VolunteerApplication
                (<["status" := VStr "hired"]> volunteer_body)
              = inl [("status", literal_error)]) as Hv' by by_computation.
      rewrite Hv' in Hv. injection Hv as <-. rewrite Hrun. by_computation.
  - assert (validate (H := one_at_sign) PartnerInquiry
              (<["status" := VNone]> partner_body)
            = inr (<["status" := VNone]> partner_record)) as Hv
      by by_computation.
    destruct (proj2 (proj2 (proj2 (enumerations_are_checked (H := one_at_sign)
                       (<["status" := VNone]> partner_body)
                       (world_of (Some empty_db)) VNone)))
                ltac:(by_computation)) as (_ & _ & _ & Hstatus).
    pose proof (Hstatus _ Hv) as Hnone. exact Hv.
Defined.

(** C8 as stated fails: None is outside the choices of the status of a
    volunteer application and of a partner inquiry, and a body with
    [status] null is accepted by either route and stored with that
    status. *)
Lemma null_status_is_accepted :
  outside ["received"; "screening"; "accepted"; "declined"] VNone
  ∧ (POST_api_volunteers (H := one_at_sign)
       (<["status" := VNone]> volunteer_body) (world_of (Some empty_db))).1
    = HTTP200 {[ "id" := VStr "0";
                 "message" := VStr "Volunteer application received" ]}
  ∧ (λ d : document, d !! "status")
      <$> stored (POST_api_volunteers (H := one_at_sign)
                    (<["status" := VNone]> volunteer_body)
                    (world_of (Some empty_db))).2 "volunteerapplication"
    = [Some VNone]
  ∧ outside ["received"; "in_discussion"; "mou_draft"; "closed"] VNone
  ∧ (POST_api_partners (H := one_at_sign)
       (<["status" := VNone]> partner_body) (world_of (Some empty_db))).1
    = HTTP200 {[ "id" := VStr "0";
                 "message" := VStr "Partner inquiry submitted" ]}
  ∧ (λ d : document, d !! "status")
      <$> stored (POST_api_partners (H := one_at_sign)
                    (<["status" := VNone]> partner_body)
                    (world_of (Some empty_db))).2 "partnerinquiry"
    = [Some VNone].
Proof.
  split; [apply (bool_decide_unpack _); vm_compute; exact I|].
  split; [by_computation|]. split; [by_computation|].
  split; [apply (bool_decide_unpack _); vm_compute; exact I|].
  split; by_computation.
Qed.

(** ** Intake forms: a store that refuses *)

Lemma substring_length (n : nat) (s : string) :
  (String.length (substring 0 n s) ≤ n)%nat.
Proof.
  revert s. induction n as [|n IH]; intros [|c s]; simpl; try lia.
  specialize (IH s). lia.
Qed.

(** C5, as amended.  On each of the four intake routes, when the body
    is valid and the store refuses the insert, the answer is 500 and
    its detail is the text of the store's error, whole; the adapter has
    been called once, for that insert, and the store is as it was. *)
Theorem store_failure_is_500 `{EmailValidator} f body m w e :
  validate (form_model f) body = inr m →
  store_error w = Some e →
  POST_api f body w
  = (HTTPError 500 (str e), log (Insert (form_collection f) m) w).
Proof.
  intros Hvalid Hstore. rewrite POST_api_unfold.
  unfold with_body. rewrite Hvalid.
  unfold serve, try_except, bind.
  rewrite (create_document_refused _ _ _ e Hstore). reflexivity.
Qed.

Lemma store_failure_is_500_witness :
  POST_api (H := one_at_sign) donations donation_body
    (world_of (Some refusing_db))
  = (HTTPError 500 refused_text,
     log (Insert "donationintent" donation_record)
         (world_of (Some refusing_db))).
Proof.
  apply (store_failure_is_500 (H := one_at_sign) donations donation_body
           donation_record
           (world_of (Some refusing_db)) (Exception refused_text)).
  - by_computation.
  - by_computation.
Defined.

(** C5 as stated fails: the detail of the 500 is the whole text of the
    error, here longer than the 80 and the 120 characters at which the
    diagnostic endpoint cuts, and equal to no shorter cut of it. *)
Lemma failure_text_is_not_cut :
  ∃ detail,
    (POST_api_donations (H := one_at_sign) donation_body
       (world_of (Some refusing_db))).1 = HTTPError 500 detail
    ∧ detail = refused_text
    ∧ (120 < String.length detail)%nat
    ∧ ∀ n, (n < String.length refused_text)%nat →
           detail ≠ substring 0 n refused_text.
Proof.
  exists refused_text. split; [by_computation|].
  split; [reflexivity|]. split; [vm_compute; lia|].
  intros n Hn Heq. pose proof (substring_length n refused_text) as Hle.
  rewrite <- Heq in Hle. lia.
Qed.

(** ** The diagnostic endpoint *)

(** The report and its [database] field, state by state. *)
Lemma diagnostic_database_line w :
  ∃ report,
    test_database w = (Ok report, w)
    ∧ report !! "database" = Some (VStr (database_line w))
    ∧ (db w = None →
       report = {[ "backend" := VStr "✅ Running";
                   "database" := VStr "⚠️ Available but not initialized";
                   "database_url" := VNone;
                   "database_name" := VNone;
                   "connection_status" := VStr "Not Connected";
                   "collections" := VList [] ]}).
Proof.
  unfold test_database, name_or_connected, list_collection_names,
    database_line, working_line.
  destruct (db w) as [d|] eqn:Hdb.
  - destruct (name d) as [|v|[[] text']] eqn:Hname;
      destruct (fault d) as [text|] eqn:Hfault;
      (eexists; split; [reflexivity|]; split; [by_computation|discriminate]).
  - eexists. split; [reflexivity|]. split; [by_computation|].
    intros _. by_computation.
Qed.

(** C6. In every state of the process the diagnostic handler returns,
    raising nothing, and [GET /test] answers 200 with the report it
    built, the state left as it was.  When no database handle exists,
    the report says so: [database] is the warning text of the handler's
    else-branch, [connection_status] is Not Connected, and no
    collection is listed.  A failure of a step is swallowed and turned
    into the [database] field: when reading the name of the handle
    raises (anything but an AttributeError, which [hasattr] takes for
    a missing attribute), the field is the error mark and the first
    120 characters of the error's text; when listing the collections
    raises, it is the warning and the first 80 characters of the
    text; when no step fails it says connected and working. *)
Theorem diagnostic_never_fails w :
  ∃ report,
    test_database w = (Ok report, w)
    ∧ GET_test w = (HTTP200 report, w)
    ∧ (db w = None →
       report = {[ "backend" := VStr "✅ Running";
                   "database" := VStr "⚠️ Available but not initialized";
                   "database_url" := VNone;
                   "database_name" := VNone;
                   "connection_status" := VStr "Not Connected";
                   "collections" := VList [] ]})
    ∧ (∀ d e, db w = Some d → name d = AttrRaises e →
              is_attribute_error e = false →
              report !! "database"
              = Some (VStr ("❌ Error: " ++ first_chars 120 (str e))))
    ∧ (∀ d text, db w = Some d → name_is_read d → fault d = Some text →
                 report !! "database"
                 = Some (VStr ("⚠️ Connected but Error: "
                               ++ first_chars 80 text)))
    ∧ (∀ d, db w = Some d → name_is_read d → fault d = None →
            report !! "database" = Some (VStr "✅ Connected & Working")).
Proof.
  destruct (diagnostic_database_line w) as (report & Hrun & Hline & Hnone).
  exists report. split; [exact Hrun|].
  split; [unfold GET_test, serve, uncaught, try_except; by rewrite Hrun|].
  split; [exact Hnone|]. unfold database_line, working_line in Hline.
  split; [|split].
  - intros d e Hdb Hname He. by rewrite Hline, Hdb, Hname, He.
  - intros d text Hdb Hread Hfault. rewrite Hline, Hdb, Hfault.
    destruct (name d) as [|v|e] eqn:Hname; try reflexivity.
    by rewrite (Hread e Hname).
  - intros d Hdb Hread Hfault. rewrite Hline, Hdb, Hfault.
    destruct (name d) as [|v|e] eqn:Hname; try reflexivity.
    by rewrite (Hread e Hname).
Qed.

Lemma diagnostic_never_fails_witness :
  (∃ report,
     GET_test (world_of None) = (HTTP200 report, world_of None)
     ∧ report !! "database" = Some (VStr "⚠️ Available but not initialized")
     ∧ report !! "connection_status" = Some (VStr "Not Connected"))
  ∧ (∃ report,
       GET_test (world_of (Some nameless_db))
       = (HTTP200 report, world_of (Some nameless_db))
       ∧ report !! "database"
         = Some (VStr "❌ Error: name is not available"))
  ∧ (∃ report,
       GET_test (world_of (Some refusing_db))
       = (HTTP200 report, world_of (Some refusing_db))
       ∧ report !! "database"
         = Some (VStr ("⚠️ Connected but Error: "
                       ++ first_chars 80 refused_text))).
Proof.
  split; [|split].
  - destruct (diagnostic_never_fails (world_of None))
      as (report & _ & Hget & Hnone & _).
    exists report. split; [exact Hget|].
    rewrite (Hnone eq_refl). split; by_computation.
  - destruct (diagnostic_never_fails (world_of (Some nameless_db)))
      as (report & _ & Hget & _ & Hname & _).
    exists report. split; [exact Hget|].
    exact (Hname nameless_db (Exception "name is not available")
             eq_refl eq_refl eq_refl).
  - destruct (diagnostic_never_fails (world_of (Some refusing_db)))
      as (report & _ & Hget & _ & _ & Hfault & _).
    exists report. split; [exact Hget|].
    apply (Hfault refusing_db refused_text eq_refl); [|reflexivity].
    intros e. discriminate.
Defined.

(** What the report says of a failure at each step. *)
Lemma diagnostic_reports_store_fault w d text :
  db w = Some d → name_is_read d → fault d = Some text →
  ∃ report,
    test_database w = (Ok report, w)
    ∧ report !! "database"
      = Some (VStr ("⚠️ Connected but Error: " ++ first_chars 80 text))
    ∧ report !! "connection_status" = Some (VStr "Connected")
    ∧ report !! "collections" = Some (VList []).
Proof.
  intros Hdb Hname Hfault. unfold test_database, name_or_connected,
    list_collection_names. rewrite Hdb, Hfault.
  destruct (name d) as [|v|e] eqn:He; [| |rewrite (Hname e He)];
    (eexists; split; [reflexivity|]; repeat split; by_computation).
Qed.

Lemma diagnostic_reports_attribute_error w d e :
  db w = Some d → name d = AttrRaises e → is_attribute_error e = false →
  ∃ report,
    test_database w = (Ok report, w)
    ∧ report !! "database"
      = Some (VStr ("❌ Error: " ++ first_chars 120 (str e)))
    ∧ report !! "connection_status" = Some (VStr "Not Connected")
    ∧ report !! "collections" = Some (VList []).
Proof.
  intros Hdb Hname He. unfold test_database, name_or_connected.
  rewrite Hdb, Hname, He.
  eexists; split; [reflexivity|]; repeat split; by_computation.
Qed.

Lemma diagnostic_reports_working w d :
  db w = Some d → name_is_read d → fault d = None →
  ∃ report,
    test_database w = (Ok report, w)
    ∧ report !! "database" = Some (VStr "✅ Connected & Working")
    ∧ report !! "database_name"
      = Some match name d with
             | Attr v => v
             | _ => VStr "✅ Connected"
             end
    ∧ report !! "connection_status" = Some (VStr "Connected")
    ∧ report !! "collections"
      = Some (VList (VStr <$> take 20 (map fst (map_to_list (collections d))))).
Proof.
  intros Hdb Hname Hfault. unfold test_database, name_or_connected,
    list_collection_names. rewrite Hdb, Hfault.
  destruct (name d) as [|v|e] eqn:He; [| |rewrite (Hname e He)];
    (eexists; split; [reflexivity|]; repeat split; by_computation).
Qed.

(** ** The listing routes *)

Section Listing.
Context `{EmailValidator}.

(** The three handlers are one handler, up to the collection. *)
Lemma list_content_unfold c limit published_only :
  list_content c limit published_only
  = (docs <~ get_documents (content_collection c)
               (filter_for published_only) limit ;;
     ret (pop_ids docs))%py.
Proof. destruct c, published_only; reflexivity. Qed.

Lemma GET_api_unfold c limit published_only :
  GET_api c limit published_only
  = serve (respond_list (content_model c))
      (uncaught (list_content c
                   (Some (default (content_default_limit c) limit))
                   (default true published_only))).
Proof. destruct c, limit, published_only; reflexivity. Qed.

Lemma list_content_served c limit published_only w :
  store_error w = None →
  list_content c limit published_only w
  = (Ok (pop_ids (up_to limit
                    (filter (doc_matches (filter_for published_only))
                            (stored w (content_collection c))))),
     log (Find (content_collection c) (filter_for published_only) limit) w).
Proof.
  intros Hs. rewrite list_content_unfold. unfold bind.
  by rewrite (get_documents_served _ _ _ _ Hs).
Qed.

Lemma list_content_refused c limit published_only w e :
  store_error w = Some e →
  list_content c limit published_only w
  = (Raise e,
     log (Find (content_collection c) (filter_for published_only) limit) w).
Proof.
  intros Hs. rewrite list_content_unfold. unfold bind.
  by rewrite (get_documents_refused _ _ _ _ _ Hs).
Qed.

Lemma pop_ids_no_id docs : Forall (λ d : document, d !! "_id" = None) (pop_ids docs).
Proof.
  unfold pop_ids. apply Forall_fmap, Forall_forall. intros d _. simpl.
  apply lookup_delete_eq.
Qed.

Lemma validate_all_Forall2 model xs rs :
  validate_all model xs = Some rs ↔
  Forall2 (λ x r, validate model x = inr r) xs rs.
Proof.
  revert rs. induction xs as [|x xs IH]; intros rs; simpl.
  - split; [intros [= <-]; constructor|]. intros Hf. by inversion Hf.
  - destruct (validate model x) as [errs|r] eqn:Hx.
    + split; [discriminate|]. intros Hf. inversion Hf; congruence.
    + destruct (validate_all model xs) as [outs|] eqn:Hxs.
      * split.
        -- intros [= <-]. constructor; [done|]. by apply IH.
        -- intros Hf. inversion Hf as [|x' r' xs' rs' Hr Hrest]; subst.
           apply IH in Hrest. congruence.
      * split; [discriminate|]. intros Hf.
        inversion Hf as [|x' r' xs' rs' Hr Hrest]; subst.
        apply IH in Hrest. discriminate.
Qed.

Lemma validate_all_presentable model docs :
  Forall (presentable model) docs →
  ∃ rs, validate_all model (pop_ids docs) = Some rs
        ∧ Forall2 (λ d r, validate model (delete "_id" d) = inr r) docs rs.
Proof.
  induction 1 as [|d docs [r Hr] _ (rs & Hrs & Hall)].
  - exists []. split; [reflexivity|constructor].
  - exists (r :: rs). split; [|by constructor].
    unfold pop_ids in *. rewrite fmap_cons. simpl. by rewrite Hr, Hrs.
Qed.

Lemma validate_all_pop_ids model docs rs :
  validate_all model (pop_ids docs) = Some rs ↔
  Forall2 (λ d r, validate model (delete "_id" d) = inr r) docs rs.
Proof.
  unfold pop_ids. rewrite validate_all_Forall2. apply Forall2_fmap_l.
Qed.

Lemma GET_api_served c limit published_only w :
  store_error w = None →
  GET_api c (Some limit) (Some published_only) w
  = (respond_list (content_model c)
       (pop_ids (take (Z.to_nat limit)
                   (filter (doc_matches (filter_for published_only))
                           (stored w (content_collection c))))),
     log (Find (content_collection c) (filter_for published_only)
               (Some limit)) w).
Proof.
  intros Hs. rewrite GET_api_unfold. unfold serve, uncaught, try_except.
  simpl. by rewrite (list_content_served _ _ _ _ Hs).
Qed.

Lemma GET_api_refused c limit published_only w e :
  store_error w = Some e →
  GET_api c (Some limit) (Some published_only) w
  = (InternalServerError,
     log (Find (content_collection c) (filter_for published_only)
               (Some limit)) w).
Proof.
  intros Hs. rewrite GET_api_unfold. unfold serve, uncaught, try_except.
  simpl. by rewrite (list_content_refused _ _ _ _ _ Hs).
Qed.

(** A 200 from a listing route: the store served and every record
    fetched was accepted by the model. *)
Lemma GET_api_200 c limit published_only w records w' :
  GET_api c (Some limit) (Some published_only) w = (HTTP200 records, w') →
  store_error w = None
  ∧ Forall2 (λ d r, validate (content_model c) (delete "_id" d) = inr r)
      (take (Z.to_nat limit)
         (filter (doc_matches (filter_for published_only))
                 (stored w (content_collection c))))
      records.
Proof.
  intros Hrun. destruct (store_error w) as [e|] eqn:Hs.
  { rewrite (GET_api_refused _ _ _ _ e Hs) in Hrun. discriminate. }
  split; [reflexivity|].
  rewrite (GET_api_served _ _ _ _ Hs) in Hrun. unfold respond_list in Hrun.
  destruct (validate_all _ _) as [outs|] eqn:Hall; [|discriminate].
  injection Hrun as <- _. by apply validate_all_pop_ids.
Qed.

End Listing.

(** C9. A listing request that omits [limit] is served as one with
    limit 20 for programs and 12 for stories and posts; one that omits
    [published_only] is served as one with published_only true.  With
    both omitted the store is asked for the published records of the
    collection, at most 20 or 12 of them. *)
Theorem query_defaults `{EmailValidator} w :
  (∀ po, GET_api_programs None po w = GET_api_programs (Some 20) po w)
  ∧ (∀ po, GET_api_stories None po w = GET_api_stories (Some 12) po w)
  ∧ (∀ po, GET_api_posts None po w = GET_api_posts (Some 12) po w)
  ∧ (∀ c limit, GET_api c limit None w = GET_api c limit (Some true) w)
  ∧ (GET_api_programs None None w).2
    = log (Find "program" {[ "status" := VStr "published" ]} (Some 20)) w
  ∧ (GET_api_stories None None w).2
    = log (Find "story" {[ "status" := VStr "published" ]} (Some 12)) w
  ∧ (GET_api_posts None None w).2
    = log (Find "post" {[ "status" := VStr "published" ]} (Some 12)) w.
Proof.
  assert (∀ c, (GET_api c None None w).2
               = log (Find (content_collection c)
                        {[ "status" := VStr "published" ]}
                        (Some (content_default_limit c))) w) as Hcall.
  { intros c. rewrite GET_api_unfold. unfold serve, uncaught, try_except.
    destruct (store_error w) as [e|] eqn:Hs.
    - by rewrite (list_content_refused _ _ _ _ _ Hs).
    - by rewrite (list_content_served _ _ _ _ Hs). }
  repeat split; try reflexivity.
  - intros c limit. by destruct c.
  - apply (Hcall programs).
  - apply (Hcall stories).
  - apply (Hcall posts).
Qed.

(** C10. No record of a listing carries the store's [_id]: neither a
    record that a listing handler returns, nor a record of the body
    that the route answers with. *)
Theorem listing_has_no_id `{EmailValidator} c limit published_only w :
  (∀ docs w', list_content c limit published_only w = (Ok docs, w') →
              Forall (λ d, d !! "_id" = None) docs)
  ∧ (∀ q_limit q_published_only records w',
       GET_api c q_limit q_published_only w = (HTTP200 records, w') →
       Forall (λ r, r !! "_id" = None) records).
Proof.
  split.
  - intros docs w' Hrun. destruct (store_error w) as [e|] eqn:Hs.
    + rewrite (list_content_refused _ _ _ _ _ Hs) in Hrun. discriminate.
    + rewrite (list_content_served _ _ _ _ Hs) in Hrun.
      injection Hrun as <- _. apply pop_ids_no_id.
  - intros q_limit q_po records w' Hrun. rewrite GET_api_unfold in Hrun.
    unfold serve, uncaught, try_except in Hrun.
    destruct (list_content c _ _ w) as [[docs|e] w1]; [|discriminate].
    unfold respond_list in Hrun.
    destruct (validate_all (content_model c) docs) as [outs|] eqn:Hall;
      [|discriminate].
    injection Hrun as <- _. apply validate_all_Forall2 in Hall.
    eapply Forall2_Forall_r; [exact Hall|].
    apply Forall_forall. intros d _ r Hr.
    apply (validate_no_extra _ _ _ "_id" Hr).
    destruct c; apply (bool_decide_unpack _); vm_compute; exact I.
Qed.

Lemma listing_has_no_id_witness :
  GET_api (H := one_at_sign) stories (Some 2) (Some true)
    (world_of (Some stories_db))
  = (HTTP200 [story_view 0 "published"; story_view 2 "published"],
     log (Find "story" {[ "status" := VStr "published" ]} (Some 2))
         (world_of (Some stories_db)))
  ∧ Forall (λ r : document, r !! "_id" = None)
      [story_view 0 "published"; story_view 2 "published"].
Proof.
  assert (GET_api (H := one_at_sign) stories (Some 2) (Some true)
            (world_of (Some stories_db))
          = (HTTP200 [story_view 0 "published"; story_view 2 "published"],
             log (Find "story" {[ "status" := VStr "published" ]} (Some 2))
                 (world_of (Some stories_db)))) as Hrun
    by (by_computation).
  split; [exact Hrun|].
  exact (proj2 (listing_has_no_id (H := one_at_sign) stories None true
                  (world_of (Some stories_db)))
           (Some 2) (Some true) _ _ Hrun).
Defined.

(** The status of a record that a content model accepts is the status
    of the input, when that is published. *)
Lemma published_preserved `{EmailValidator} c d r :
  published d →
  validate (content_model c) (delete "_id" d) = inr r →
  published r.
Proof.
  intros Hpub Hr. unfold published.
  apply (validate_field_value (content_model c) (delete "_id" d) r
           (Field "status" (Optional (Literal ["draft"; "published"]))
                  (Default (VStr "published")) None)).
  - destruct c; apply (bool_decide_unpack _); vm_compute; exact I.
  - destruct c; field_of_model.
  - exact Hr.
  - unfold check_field. cbn [f_name f_type f_gt].
    rewrite lookup_delete_ne by done. rewrite Hpub. reflexivity.
Qed.

Lemma published_not_draft (d : document) : published d → ¬ draft d.
Proof. unfold published, draft. intros -> [=]. Qed.

(** C1.  In every state of the store and for every limit: the records
    of a 200 answer to a listing with published_only true are the
    first [limit] published records of the collection, in store order,
    each as the model presents it without [_id].  So every record of
    the answer is published and none is a draft; there are
    min(limit, number of published records) of them, which is at most
    [limit] for a limit that is a count (no sequence is shorter than a
    negative limit) and exactly [limit] when that many are published;
    and when the published records number at most [limit], each of
    them is in the answer.  The answer is 200 whenever the store
    serves and the model accepts those records. *)
Theorem published_listing `{EmailValidator} c limit w :
  (∀ records w',
     GET_api c (Some limit) (Some true) w = (HTTP200 records, w') →
     Forall2 (λ d r, validate (content_model c) (delete "_id" d) = inr r)
       (take (Z.to_nat limit) (published_in w c)) records
     ∧ Forall published records
     ∧ Forall (λ r, ¬ draft r) records
     ∧ length records
       = Nat.min (Z.to_nat limit) (length (published_in w c))
     ∧ (0 ≤ limit → Z.of_nat (length records) ≤ limit)
     ∧ (0 ≤ limit ≤ Z.of_nat (length (published_in w c)) →
        Z.of_nat (length records) = limit)
     ∧ (Z.of_nat (length (published_in w c)) ≤ limit →
        ∀ d, d ∈ stored w (content_collection c) → published d →
             ∃ r, r ∈ records
                  ∧ validate (content_model c) (delete "_id" d) = inr r))
  ∧ (store_error w = None →
     Forall (presentable (content_model c))
            (take (Z.to_nat limit) (published_in w c)) →
     ∃ records,
       GET_api c (Some limit) (Some true) w
       = (HTTP200 records,
          log (Find (content_collection c) {[ "status" := VStr "published" ]}
                    (Some limit)) w)).
Proof.
  split.
  - intros records w' Hrun.
    apply GET_api_200 in Hrun as [_ Hrel]. unfold filter_for in Hrel.
    rewrite filter_published in Hrel. fold (published_in w c) in Hrel.
    assert (Forall published records) as Hpub.
    { eapply Forall2_Forall_r; [exact Hrel|].
      apply Forall_forall. intros d Hd r Hr.
      apply (published_preserved c d r); [|exact Hr].
      apply subseteq_take in Hd. unfold published_in in Hd.
      by apply list_elem_of_filter in Hd as [? _]. }
    assert (length records
            = Nat.min (Z.to_nat limit) (length (published_in w c))) as Hlen.
    { rewrite <- (Forall2_length _ _ _ Hrel). apply length_take. }
    split; [exact Hrel|]. split; [exact Hpub|].
    split; [eapply Forall_impl; [exact Hpub|apply published_not_draft]|].
    split; [exact Hlen|]. split; [lia|]. split; [lia|].
    intros Hfew d Hd Hp. rewrite take_ge in Hrel by lia.
    assert (d ∈ published_in w c) as Hin
      by (apply list_elem_of_filter; done).
    apply list_elem_of_lookup in Hin as [i Hi].
    destruct (Forall2_lookup_l _ _ _ _ _ Hrel Hi) as (r & Hr & Hdr).
    exists r. split; [|exact Hdr]. apply list_elem_of_lookup. by exists i.
  - intros Hs Hvalid.
    destruct (validate_all_presentable (content_model c) _ Hvalid)
      as (records & Hall & _).
    exists records. rewrite (GET_api_served _ _ _ _ Hs).
    unfold filter_for. rewrite filter_published.
    fold (published_in w c). unfold respond_list. by rewrite Hall.
Qed.

Lemma published_listing_witness :
  ∃ records,
    GET_api (H := one_at_sign) stories (Some 2) (Some true)
      (world_of (Some stories_db))
    = (HTTP200 records,
       log (Find "story" {[ "status" := VStr "published" ]} (Some 2))
           (world_of (Some stories_db)))
    ∧ length (published_in (world_of (Some stories_db)) stories) = 5%nat
    ∧ Z.of_nat (length records) = 2
    ∧ Forall published records
    ∧ Forall (λ r, ¬ draft r) records.
Proof.
  destruct (published_listing (H := one_at_sign) stories 2
              (world_of (Some stories_db))) as [Hall Hsome].
  assert (store_error (world_of (Some stories_db)) = None) as Hs
    by (by_computation).
  assert (Forall (presentable (H := one_at_sign) Story)
            (take (Z.to_nat 2)
                  (published_in (world_of (Some stories_db)) stories))) as Hv.
  { assert (take (Z.to_nat 2)
                  (published_in (world_of (Some stories_db)) stories)
            = [story 0 "published"; story 2 "published"]) as ->
      by (by_computation).
    apply Forall_cons. split.
    { exists (story_view 0 "published"). by_computation. }
    apply Forall_cons. split.
    { exists (story_view 2 "published"). by_computation. }
    by apply Forall_nil. }
  assert (length (published_in (world_of (Some stories_db)) stories) = 5%nat)
    as Hfive by (by_computation).
  destruct (Hsome Hs Hv) as [records Hget].
  exists records. split; [exact Hget|]. split; [exact Hfive|].
  destruct (Hall _ _ Hget) as (_ & Hpub & Hnodraft & _ & _ & Hexact & _).
  split; [|split; [exact Hpub|exact Hnodraft]].
  apply Hexact. rewrite Hfive. lia.
Defined.

(** ** Round trip of a program *)

(** A served insert: the record is appended to its collection under a
    fresh [_id], whose text is returned. *)
Lemma create_document_served collection_name data w :
  store_error w = None →
  ∃ oid w1,
    create_document collection_name data w = (Ok oid, w1)
    ∧ store_error w1 = None
    ∧ stored w1 collection_name
      = (stored w collection_name ++ [<["_id" := VObjectId oid]> data])%list.
Proof.
  unfold store_error, stored, create_document, bind, modify, get, raise, ret.
  simpl. destruct (db w) as [d|]; simpl; [|discriminate].
  destruct (fault d) eqn:Hf; simpl; [discriminate|]. intros _.
  eexists _, _. split; [reflexivity|]. simpl.
  split; [reflexivity|]. apply lookup_total_insert_eq.
Qed.

Lemma create_document_refused_inv collection_name data w oid w1 :
  create_document collection_name data w = (Ok oid, w1) →
  store_error w = None.
Proof.
  intros Hrun. destruct (store_error w) as [e|] eqn:Hs; [|reflexivity].
  rewrite (create_document_refused _ _ _ e Hs) in Hrun. discriminate.
Qed.

(** Every [Program] built by validation is a Program record in the
    sense of the round trip below. *)
Lemma program_instance_is_record `{EmailValidator} raw p :
  validate Program raw = inr p → validate Program p = inr p.
Proof.
  apply validate_idem.
  - apply (bool_decide_unpack _). vm_compute. exact I.
  - repeat (apply Forall_cons; split; [reflexivity|]). by apply Forall_nil.
  - repeat (apply Forall_cons; split;
            [intros v Hv; vm_compute in Hv;
             first [discriminate | injection Hv as <-; split; reflexivity]|]).
    by apply Forall_nil.
Qed.

(** C2, as amended.  Let [p] be a Program record and the limit exceed
    the number of programs stored.  When [p] is inserted and the
    programs are then listed with published_only false, a 200 answer
    has one record more than the collection held, the last one equal
    to [p] field for field, and no record of it has an [_id] or an
    [id] field: the assigned identifier is returned by the insert
    only.  The insert succeeds and the answer is 200 whenever the
    store serves and holds programs the model accepts. *)
Theorem program_round_trip `{EmailValidator} p w limit :
  validate Program p = inr p →
  Z.of_nat (length (stored w "program")) < limit →
  (∀ oid w1 records w2,
     create_document "program" p w = (Ok oid, w1) →
     GET_api_programs (Some limit) (Some false) w1 = (HTTP200 records, w2) →
     last records = Some p
     ∧ length records = S (length (stored w "program"))
     ∧ Forall (λ r, r !! "_id" = None ∧ r !! "id" = None) records)
  ∧ (store_error w = None →
     Forall (presentable Program) (stored w "program") →
     ∃ oid w1 records w2,
       create_document "program" p w = (Ok oid, w1)
       ∧ GET_api_programs (Some limit) (Some false) w1
         = (HTTP200 records, w2)).
Proof.
  intros Hp Hlimit.
  assert (p !! "_id" = None) as Hnoid.
  { apply (validate_no_extra Program p p "_id" Hp).
    apply (bool_decide_unpack _). vm_compute. exact I. }
  split.
  - intros oid w1 records w2 Hcreate Hget.
    pose proof (create_document_refused_inv _ _ _ _ _ Hcreate) as Hs.
    destruct (create_document_served "program" p w Hs)
      as (oid' & w1' & Hcreate' & _ & Hstored).
    rewrite Hcreate in Hcreate'. injection Hcreate' as <- <-.
    apply (GET_api_200 programs) in Hget as [_ Hrel].
    unfold filter_for in Hrel. simpl content_collection in Hrel.
    change (content_model programs) with Program in Hrel.
    rewrite filter_everything, take_ge in Hrel
      by (rewrite Hstored, length_app; simpl; lia).
    split; [|split].
    + rewrite Hstored in Hrel.
      apply Forall2_app_inv_l in Hrel as (rs & rp & _ & Hlast & ->).
      inversion Hlast as [|d r ds rs' Hr Hnil]; subst. inversion Hnil; subst.
      rewrite delete_insert_id in Hr by exact Hnoid.
      rewrite last_snoc. congruence.
    + rewrite <- (Forall2_length _ _ _ Hrel), Hstored, length_app. simpl. lia.
    + eapply Forall2_Forall_r; [exact Hrel|].
      apply Forall_forall. intros d _ r Hr.
      split; apply (validate_no_extra Program _ r _ Hr);
        apply (bool_decide_unpack _); vm_compute; exact I.
  - intros Hs Hvalid.
    destruct (create_document_served "program" p w Hs)
      as (oid & w1 & Hcreate & Hs1 & Hstored).
    assert (Forall (presentable Program) (stored w1 "program")) as Hvalid1.
    { rewrite Hstored. apply Forall_app. split; [exact Hvalid|].
      apply Forall_singleton. exists p. by rewrite delete_insert_id. }
    destruct (validate_all_presentable Program _ Hvalid1)
      as (records & Hall & _).
    exists oid, w1, records. eexists. split; [exact Hcreate|].
    change (GET_api_programs (Some limit) (Some false) w1)
      with (GET_api programs (Some limit) (Some false) w1).
    rewrite (GET_api_served programs _ _ _ Hs1).
    unfold filter_for. simpl content_collection.
    rewrite filter_everything, take_ge
      by (rewrite Hstored, length_app; simpl; lia).
    unfold respond_list. simpl content_model. by rewrite Hall.
Qed.

Lemma program_round_trip_witness :
  let inserted :=
    create_document "program" program_record (world_of (Some empty_db)) in
  let listed :=
    GET_api_programs (H := one_at_sign) (Some 100) (Some false) inserted.2 in
  inserted.1 = Ok "0"
  ∧ listed.1 = HTTP200 [program_record]
  ∧ last [program_record] = Some program_record
  ∧ Forall (λ r : document, r !! "_id" = None ∧ r !! "id" = None)
      [program_record].
Proof.
  intros inserted listed.
  assert (inserted = (Ok "0", inserted.2)) as Hcreate
    by (subst inserted; by_computation).
  assert (listed = (HTTP200 [program_record], listed.2)) as Hget
    by (subst listed inserted; by_computation).
  split; [by rewrite Hcreate|]. split; [by rewrite Hget|].
  destruct (program_round_trip (H := one_at_sign) program_record
              (world_of (Some empty_db)) 100) as [Hall _].
  - by_computation.
  - by_computation.
  - destruct (Hall _ _ _ _ Hcreate Hget) as (Hlast & _ & Hnoid).
    split; [exact Hlast|exact Hnoid].
Defined.

(** C2 as stated fails: the record that comes back is the input and
    nothing more; no field of it holds the identifier that the insert
    assigned, as the store's own id or as its text. *)
Lemma listed_program_has_no_identifier :
  let inserted :=
    create_document "program" program_record (world_of (Some empty_db)) in
  inserted.1 = Ok "0"
  ∧ stored inserted.2 "program"
    = [<["_id" := VObjectId "0"]> program_record]
  ∧ (GET_api_programs (H := one_at_sign) (Some 100) (Some false)
       inserted.2).1 = HTTP200 [program_record]
  ∧ map_Forall (λ _ v, v ≠ VObjectId "0" ∧ v ≠ VStr "0") program_record.
Proof.
  intros inserted. subst inserted.
  split; [by_computation|]. split; [by_computation|].
  split; [by_computation|].
  apply (bool_decide_unpack _). vm_compute. exact I.
Qed.

(** ** Worked examples *)

(** A valid donation is recorded: 200, the assigned id, one document
    more in the collection. *)
Example donation_is_recorded :
  let served :=
    POST_api_donations (H := one_at_sign) donation_body
      (world_of (Some empty_db)) in
  served.1 = HTTP200 {[ "id" := VStr "0";
                        "message" := VStr "Donation intent recorded" ]}
  ∧ stored served.2 "donationintent"
    = [<["_id" := VObjectId "0"]> donation_record]
  ∧ calls served.2 = [Insert "donationintent" donation_record].
Proof.
  intros served. subst served. repeat split; by_computation.
Qed.

(** Without a connection the same donation is answered 500. *)
Example donation_without_connection :
  POST_api_donations (H := one_at_sign) donation_body (world_of None)
  = (HTTPError 500 (str StoreUnavailableError),
     log (Insert "donationintent" donation_record) (world_of None)).
Proof. by_computation. Qed.

(** The default listing of the sample stories: the five published
    ones, in store order, without [_id]. *)
Example stories_by_default :
  (GET_api_stories (H := one_at_sign) None None (world_of (Some stories_db))).1
  = HTTP200 [story_view 0 "published"; story_view 2 "published";
             story_view 3 "published"; story_view 4 "published";
             story_view 5 "published"].
Proof. by_computation. Qed.

(** With published_only false the draft is listed too. *)
Example stories_with_drafts :
  (GET_api_stories (H := one_at_sign) (Some 3) (Some false)
     (world_of (Some stories_db))).1
  = HTTP200 [story_view 0 "published"; story_view 1 "draft";
             story_view 2 "published"].
Proof. by_computation. Qed.

(** A listing without a connection: the exception reaches the
    framework, which answers a plain 500. *)
Example stories_without_connection :
  (GET_api_stories (H := one_at_sign) None None (world_of None)).1
  = InternalServerError.
Proof. by_computation. Qed.

(** * Further properties of the schema layer *)

Section MoreValidation.
Context `{EmailValidator}.

Lemma validate_fields_present fs raw key :
  (validate_fields fs raw).1 = [] → key ∈ field_names fs →
  is_Some ((validate_fields fs raw).2 !! key).
Proof.
  induction fs as [|g fs IH]; intros Hnil Hkey;
    [by apply elem_of_nil in Hkey|].
  unfold field_names in Hkey. rewrite fmap_cons in Hkey. simpl in *.
  destruct (validate_fields fs raw) as [errs m]. simpl in IH.
  destruct (check_field g raw) as [p|v]; simpl in *; [discriminate|].
  destruct (decide (f_name g = key)) as [->|Hne].
  - rewrite lookup_insert_eq. by eexists.
  - rewrite lookup_insert_ne by done. apply IH; [done|].
    apply elem_of_cons in Hkey as [Heq|Hin]; [congruence|done].
Qed.

(** When every field passes its check, the model is built. *)
Lemma validate_accepts model raw :
  (∀ f, f ∈ model → ∃ v, check_field f raw = inr v) →
  ∃ m, validate model raw = inr m.
Proof.
  intros Hall. exists (validate_fields model raw).2. apply validate_inr.
  destruct (validate_fields model raw) as [[|[key p] errs] m] eqn:Hv;
    [reflexivity|].
  destruct (validate_fields_problem_inv model raw key p) as (f & Hf & _ & Hc).
  { rewrite Hv. apply list_elem_of_here. }
  destruct (Hall f Hf) as [v Hv']. congruence.
Qed.

(** The value a model gives a field that the input omits. *)
Lemma validate_default model raw m f :
  NoDup (field_names model) → f ∈ model →
  validate model raw = inr m → raw !! f_name f = None →
  match f_default f with
  | Required => False
  | Default v => m !! f_name f = Some v
  | DefaultFactoryList => m !! f_name f = Some (VList [])
  end.
Proof.
  intros Hnd Hf Hv Hraw.
  destruct (validate_fields_checked model raw f) as [v Hc];
    [by apply validate_inr in Hv as ->|done|].
  pose proof (validate_field_value model raw m f v Hnd Hf Hv Hc) as Hm.
  unfold check_field in Hc. rewrite Hraw in Hc.
  destruct (f_default f); [discriminate|congruence|congruence].
Qed.

End MoreValidation.

Ltac names_distinct := apply (bool_decide_unpack _); vm_compute; exact I.

(** X1. A record built by a model has the fields the class declares
    and no other: a key of the input that the class does not declare
    (an [_id], say) is not in the record, and every declared field is,
    supplied or defaulted. *)
Theorem record_has_declared_fields `{EmailValidator} model raw m :
  validate model raw = inr m →
  ∀ key, is_Some (m !! key) ↔ key ∈ field_names model.
Proof.
  intros Hv key. split.
  - intros Hsome. destruct (decide (key ∈ field_names model)) as [|Hnot];
      [done|].
    rewrite (validate_no_extra model raw m key Hv Hnot) in Hsome.
    by destruct Hsome.
  - intros Hkey. apply validate_inr in Hv.
    pose proof (validate_fields_present model raw key) as Hp.
    rewrite Hv in Hp. by apply Hp.
Qed.

Lemma record_has_declared_fields_witness :
  (is_Some (donation_record !! "currency") ↔ "currency" ∈ field_names DonationIntent)
  ∧ (is_Some (donation_record !! "_id") ↔ "_id" ∈ field_names DonationIntent).
Proof.
  assert (validate (H := one_at_sign) DonationIntent
            (<["_id" := VStr "mine"]> donation_body) = inr donation_record)
    as Hv by by_computation.
  split; apply (record_has_declared_fields (H := one_at_sign) _ _ _ Hv).
Defined.

(** X2. A field that the input omits takes the default its class
    declares: currency USD and frequency one_time for a donation,
    status received for a volunteer application and a partner inquiry,
    status published for a program, a story and a post, and the empty
    list for the list fields of the content classes. *)
Theorem omitted_fields_take_declared_defaults `{EmailValidator} raw m :
  (validate DonationIntent raw = inr m →
   (raw !! "currency" = None → m !! "currency" = Some (VStr "USD"))
   ∧ (raw !! "frequency" = None → m !! "frequency" = Some (VStr "one_time")))
  ∧ (validate VolunteerApplication raw = inr m → raw !! "status" = None →
     m !! "status" = Some (VStr "received"))
  ∧ (validate PartnerInquiry raw = inr m → raw !! "status" = None →
     m !! "status" = Some (VStr "received"))
  ∧ (∀ c, validate (content_model c) raw = inr m → raw !! "status" = None →
          m !! "status" = Some (VStr "published"))
  ∧ (validate Program raw = inr m →
     ∀ key, key ∈ ["activities"; "beneficiaries"; "locations"; "tags"] →
            raw !! key = None → m !! key = Some (VList []))
  ∧ (validate Story raw = inr m → raw !! "program_tags" = None →
     m !! "program_tags" = Some (VList []))
  ∧ (validate Post raw = inr m → raw !! "tags" = None →
     m !! "tags" = Some (VList [])).
Proof.
  split; [|split; [|split; [|split; [|split; [|split]]]]].
  - intros Hv. split; intros Hraw.
    + apply (validate_default DonationIntent raw m
               (Field "currency" TStr (Default (VStr "USD")) None));
        [names_distinct|field_of_model|done|done].
    + apply (validate_default DonationIntent raw m
               (Field "frequency" (Literal ["one_time"; "monthly"])
                      (Default (VStr "one_time")) None));
        [names_distinct|field_of_model|done|done].
  - intros Hv Hraw.
    apply (validate_default VolunteerApplication raw m
             (Field "status"
                (Optional (Literal ["received"; "screening"; "accepted"; "declined"]))
                (Default (VStr "received")) None));
      [names_distinct|field_of_model|done|done].
  - intros Hv Hraw.
    apply (validate_default PartnerInquiry raw m
             (Field "status"
                (Optional (Literal ["received"; "in_discussion"; "mou_draft"; "closed"]))
                (Default (VStr "received")) None));
      [names_distinct|field_of_model|done|done].
  - intros c Hv Hraw.
    apply (validate_default (content_model c) raw m
             (Field "status" (Optional (Literal ["draft"; "published"]))
                    (Default (VStr "published")) None));
      [destruct c; names_distinct|destruct c; field_of_model|done|done].
  - intros Hv key Hkey Hraw.
    assert (∀ k, Field k (Optional (ListOf TStr)) DefaultFactoryList None
                 ∈ Program →
                 raw !! k = None → m !! k = Some (VList [])) as Hlist.
    { intros k Hk Hr.
      apply (validate_default Program raw m
               (Field k (Optional (ListOf TStr)) DefaultFactoryList None));
        [names_distinct|done|done|done]. }
    repeat (apply elem_of_cons in Hkey as [->|Hkey]);
      [..|by apply elem_of_nil in Hkey];
      (apply Hlist; [field_of_model|done]).
  - intros Hv Hraw.
    apply (validate_default Story raw m
             (Field "program_tags" (Optional (ListOf TStr))
                    DefaultFactoryList None));
      [names_distinct|field_of_model|done|done].
  - intros Hv Hraw.
    apply (validate_default Post raw m
             (Field "tags" (Optional (ListOf TStr)) DefaultFactoryList None));
      [names_distinct|field_of_model|done|done].
Qed.

Lemma omitted_fields_take_declared_defaults_witness :
  donation_record !! "currency" = Some (VStr "USD")
  ∧ donation_record !! "frequency" = Some (VStr "one_time").
Proof.
  assert (validate (H := one_at_sign) DonationIntent donation_body
          = inr donation_record) as Hv by by_computation.
  destruct (proj1 (omitted_fields_take_declared_defaults
                     (H := one_at_sign) donation_body donation_record) Hv)
    as [Hcurrency Hfrequency].
  split; [apply Hcurrency|apply Hfrequency]; by_computation.
Defined.


Section MoreIntake.
Context `{EmailValidator}.

(** A 422 of a create route: the body failed its model, and the
    handler was not run. *)
Lemma POST_api_422_inv f body w errs w' :
  POST_api f body w = (HTTP422 errs, w') →
  validate (form_model f) body = inl errs ∧ w' = w.
Proof.
  rewrite POST_api_unfold. unfold with_body.
  destruct (validate (form_model f) body) as [errs0|m].
  { unfold rejection. destruct (writable body errs0); [|discriminate].
    by intros [= <- <-]. }
  unfold serve, try_except, bind, ret, raise, respond_one.
  destruct (create_document _ _ _) as [[oid|e] w1]; [|discriminate].
  destruct (validate Created _); discriminate.
Qed.

(** The field of a donation that is called amount. *)
Lemma donation_amount_field f :
  f ∈ DonationIntent → f_name f = "amount" →
  f = Field "amount" TFloat Required (Some 0%float).
Proof.
  unfold DonationIntent. intros Hf Hname.
  repeat (apply elem_of_cons in Hf as [->|Hf]; [done || discriminate|]).
  by apply elem_of_nil in Hf.
Qed.

End MoreIntake.

(** X3. A donation whose amount is a number that is not greater
    than zero fails validation with [greater_than] on [amount], and
    the state is left as it was.  The answer is the 422 when the
    violations can be written; for an amount that is NaN or minus
    infinity it is always the plain 500, because the 422 would echo
    the amount.  A number greater than zero is never among the
    violations of a 422, whatever else is wrong with the body. *)
Theorem amount_must_exceed_zero `{EmailValidator} body w a :
  body !! "amount" = Some (VNum a) →
  (PrimFloat.ltb 0 a = false →
   ∃ errs,
     validate DonationIntent body = inl errs
     ∧ ("amount", greater_than) ∈ errs
     ∧ POST_api_donations body w
       = (if writable body errs then HTTP422 errs else InternalServerError, w)
     ∧ (PrimFloat.is_finite a = false →
        POST_api_donations body w = (InternalServerError, w)))
  ∧ (PrimFloat.ltb 0 a = true →
     ∀ errs w' p, POST_api_donations body w = (HTTP422 errs, w') →
                  ("amount", p) ∉ errs).
Proof.
  intros Hbody. split.
  - intros Ha.
    destruct (with_body_rejects DonationIntent
                (λ m, serve (respond_one Created) (create_donation m)) body w
                (Field "amount" TFloat Required (Some 0%float)) greater_than)
      as (errs & Hv & Hin & Hrun).
    + field_of_model.
    + unfold check_field. simpl. rewrite Hbody. simpl. by rewrite Ha.
    + exists errs. split; [exact Hv|]. split; [exact Hin|].
      split; [exact Hrun|]. intros Hnan.
      unfold POST_api_donations. rewrite Hrun. unfold rejection.
      by rewrite (unwritable_value body errs "amount" greater_than (VNum a)).
  - intros Ha errs w' p Hrun Hin.
    apply (POST_api_422_inv donations) in Hrun as [Hv _].
    apply validate_inl in Hv as [<- _].
    apply validate_fields_problem_inv in Hin as (f & Hf & Hname & Hc).
    rewrite (donation_amount_field f Hf Hname) in Hc.
    unfold check_field in Hc. simpl in Hc. rewrite Hbody in Hc.
    simpl in Hc. rewrite Ha in Hc. discriminate.
Qed.

Lemma amount_must_exceed_zero_witness :
  POST_api_donations (H := one_at_sign)
    (<["amount" := VNum nan]> donation_body) (world_of (Some empty_db))
  = (InternalServerError, world_of (Some empty_db)).
Proof.
  destruct (proj1 (amount_must_exceed_zero (H := one_at_sign)
                     (<["amount" := VNum nan]> donation_body)
                     (world_of (Some empty_db)) nan ltac:(by_computation)))
    as (errs & _ & _ & _ & Hnan).
  - by_computation.
  - apply Hnan. by_computation.
Defined.

Ltac content_conditions :=
  repeat first
    [ apply Forall_cons; split;
      [ first [ reflexivity
              | intros ? Hdefault; vm_compute in Hdefault;
                first [ discriminate
                      | injection Hdefault as <-; split; reflexivity ] ] | ]
    | by apply Forall_nil ].

(** X4. A program, story or post built by its class is stable: built
    again from itself it is the same record.  So a record that was
    built by the class and stored under an [_id] is one the listing of
    its collection can present, and it is presented as itself. *)
Theorem content_record_is_stable `{EmailValidator} c raw p :
  validate (content_model c) raw = inr p →
  validate (content_model c) p = inr p
  ∧ ∀ oid, validate (content_model c)
             (delete "_id" (<["_id" := VObjectId oid]> p)) = inr p.
Proof.
  intros Hv.
  assert (validate (content_model c) p = inr p) as Hp.
  { revert Hv. apply validate_idem.
    - destruct c; names_distinct.
    - destruct c; content_conditions.
    - destruct c; content_conditions. }
  split; [exact Hp|]. intros oid. rewrite delete_insert_id; [exact Hp|].
  apply (validate_no_extra _ _ _ "_id" Hv). destruct c; names_distinct.
Qed.

Lemma content_record_is_stable_witness :
  validate (H := one_at_sign) Story (story_view 3 "draft")
  = inr (story_view 3 "draft")
  ∧ ∀ oid, validate (H := one_at_sign) Story
             (delete "_id" (<["_id" := VObjectId oid]> (story_view 3 "draft")))
           = inr (story_view 3 "draft").
Proof.
  apply (content_record_is_stable (H := one_at_sign) stories
           (story 3 "draft")).
  by_computation.
Defined.


(** X5. A donation that carries the required fields in their types
    (an amount greater than zero, the two names, an address the e-mail
    check accepts, the consent) and none of the optional ones is
    accepted, whatever other keys it has; the record built has the
    declared defaults and the address as the e-mail check normalised
    it. *)
Theorem minimal_donation_is_accepted `{EmailValidator}
  body a first_name last_name email email' consent :
  body !! "amount" = Some (VNum a) → PrimFloat.ltb 0 a = true →
  body !! "first_name" = Some (VStr first_name) →
  body !! "last_name" = Some (VStr last_name) →
  body !! "email" = Some (VStr email) → validate_email email = Some email' →
  body !! "consent" = Some (VBool consent) →
  body !! "currency" = None → body !! "frequency" = None →
  body !! "fund" = None → body !! "country" = None →
  body !! "message" = None →
  validate DonationIntent body
  = inr {[ "amount" := VNum a; "currency" := VStr "USD";
           "frequency" := VStr "one_time"; "fund" := VNone;
           "first_name" := VStr first_name; "last_name" := VStr last_name;
           "email" := VStr email'; "country" := VNone;
           "message" := VNone; "consent" := VBool consent ]}.
Proof.
  intros Hamount Ha Hfirst Hlast Hemail Hvalid Hconsent
         Hcurrency Hfrequency Hfund Hcountry Hmessage.
  unfold validate, DonationIntent, validate_fields, check_field.
  cbn [f_name f_type f_default f_gt].
  rewrite Hamount, Hfirst, Hlast, Hemail, Hconsent,
    Hcurrency, Hfrequency, Hfund, Hcountry, Hmessage.
  cbn [validate_type check_gt]. rewrite Hvalid, Ha. reflexivity.
Qed.

Lemma minimal_donation_is_accepted_witness :
  validate (H := one_at_sign) DonationIntent
    (<["note" := VStr "ignored"]> donation_body)
  = inr donation_record.
Proof.
  apply (minimal_donation_is_accepted (H := one_at_sign)
           (<["note" := VStr "ignored"]> donation_body)
           25%float "Ada" "Okoro" "ada@example.org" "ada@example.org" true);
    by_computation.
Defined.


(** * Further properties of the create handlers *)

Section MoreCreate.
Context `{EmailValidator}.

(** The answer of a create route, by the outcome of the adapter. *)
Lemma POST_api_valid f body m w :
  validate (form_model f) body = inr m →
  POST_api f body w
  = match create_document (form_collection f) m w with
    | (Ok oid, w') =>
      (HTTP200 {[ "id" := VStr oid; "message" := VStr (form_message f) ]}, w')
    | (Raise e, w') => (HTTPError 500 (str e), w')
    end.
Proof.
  intros Hv. rewrite POST_api_unfold. unfold with_body. rewrite Hv.
  unfold serve, try_except, bind, ret, raise, respond_one.
  destruct (create_document _ _ _) as [[oid|e] w']; [|reflexivity].
  destruct f; reflexivity.
Qed.

(** The adapter records its call before anything else, and changes
    nothing else of the record of calls. *)
Lemma create_document_calls collection_name data w :
  calls (create_document collection_name data w).2
  = (calls w ++ [Insert collection_name data])%list.
Proof.
  unfold create_document, bind, modify, get, raise, ret. simpl.
  destruct (db w) as [d|]; simpl; [|reflexivity].
  destruct (fault d); reflexivity.
Qed.

End MoreCreate.

(** X6. When the body is valid and the adapter returns an identifier,
    a create route answers 200 with that identifier under [id] and the
    route's confirmation message under [message], and the state is
    the one the adapter left. *)
Theorem create_answers_with_adapter_id `{EmailValidator} f body m w oid w' :
  validate (form_model f) body = inr m →
  create_document (form_collection f) m w = (Ok oid, w') →
  POST_api f body w
  = (HTTP200 {[ "id" := VStr oid; "message" := VStr (form_message f) ]}, w')
  ∧ form_message donations = "Donation intent recorded"
  ∧ form_message volunteers = "Volunteer application received"
  ∧ form_message partners = "Partner inquiry submitted"
  ∧ form_message contact = "Message received".
Proof.
  intros Hv Hrun. split; [|done].
  by rewrite (POST_api_valid f body m w Hv), Hrun.
Qed.

Lemma create_answers_with_adapter_id_witness :
  POST_api (H := one_at_sign) volunteers volunteer_body
    (world_of (Some empty_db))
  = (HTTP200 {[ "id" := VStr "0";
                "message" := VStr "Volunteer application received" ]},
     (create_document "volunteerapplication" volunteer_record
        (world_of (Some empty_db))).2).
Proof.
  apply (create_answers_with_adapter_id (H := one_at_sign) volunteers
           volunteer_body volunteer_record (world_of (Some empty_db)) "0").
  - by_computation.
  - by_computation.
Defined.



(** X8. A 422 of a create route means that the body failed its model
    with exactly the violations reported, and that nothing happened:
    the state is what it was, no adapter call included.  This holds
    for every form and every kind of violation. *)
Theorem invalid_body_leaves_no_trace `{EmailValidator} f body w errs w' :
  POST_api f body w = (HTTP422 errs, w') →
  validate (form_model f) body = inl errs
  ∧ errs ≠ []
  ∧ w' = w.
Proof.
  intros Hrun. apply POST_api_422_inv in Hrun as [Hv ->].
  split; [exact Hv|]. split; [|reflexivity].
  by apply validate_inl in Hv as [_ ?].
Qed.

Lemma invalid_body_leaves_no_trace_witness :
  validate (H := one_at_sign) ContactMessage ∅
  = inl [("name", missing); ("email", missing); ("message", missing);
         ("consent", missing)]
  ∧ [("name", missing); ("email", missing); ("message", missing);
     ("consent", missing)] ≠ []
  ∧ world_of None = world_of None.
Proof.
  apply (invalid_body_leaves_no_trace (H := one_at_sign) contact ∅
           (world_of None)).
  by_computation.
Defined.

(** X9. A valid body makes a create route call the adapter exactly
    once, to insert the record built from the body into the route's
    own collection, whether the insert then succeeds or fails. *)
Theorem valid_body_inserts_once `{EmailValidator} f body m w :
  validate (form_model f) body = inr m →
  calls (POST_api f body w).2
  = (calls w ++ [Insert (form_collection f) m])%list
  ∧ form_collection donations = "donationintent"
  ∧ form_collection volunteers = "volunteerapplication"
  ∧ form_collection partners = "partnerinquiry"
  ∧ form_collection contact = "contactmessage".
Proof.
  intros Hv. split; [|done]. rewrite (POST_api_valid f body m w Hv).
  rewrite <- (create_document_calls (form_collection f) m w).
  by destruct (create_document _ _ _) as [[oid|e] w'].
Qed.

Lemma valid_body_inserts_once_witness :
  calls (POST_api (H := one_at_sign) donations donation_body
           (world_of (Some refusing_db))).2
  = [Insert "donationintent" donation_record].
Proof.
  apply (valid_body_inserts_once (H := one_at_sign) donations donation_body
           donation_record (world_of (Some refusing_db))).
  by_computation.
Defined.


(** * Further properties of the listing handlers *)

Section MoreListing.
Context `{EmailValidator}.

Lemma fetched_filter w c limit published_only :
  take (Z.to_nat limit)
    (filter (doc_matches (filter_for published_only))
            (stored w (content_collection c)))
  = fetched w c limit published_only.
Proof.
  unfold fetched, filter_for, published_in. destruct published_only.
  - by rewrite filter_published.
  - by rewrite filter_everything.
Qed.

(** The status of a record that a content model accepts is the status
    of the input, for either of the two statuses. *)
Lemma status_preserved c d r status :
  status ∈ ["draft"; "published"] →
  d !! "status" = Some (VStr status) →
  validate (content_model c) (delete "_id" d) = inr r →
  r !! "status" = Some (VStr status).
Proof.
  intros Hstatus Hd Hr.
  apply (validate_field_value (content_model c) (delete "_id" d) r
           (Field "status" (Optional (Literal ["draft"; "published"]))
                  (Default (VStr "published")) None)).
  - destruct c; apply (bool_decide_unpack _); vm_compute; exact I.
  - destruct c; field_of_model.
  - exact Hr.
  - unfold check_field. cbn [f_name f_type f_gt].
    rewrite lookup_delete_ne by done. rewrite Hd. simpl.
    by rewrite decide_True.
Qed.

End MoreListing.

(** X10. When the store refuses, a listing route answers the
    framework's plain 500, whatever the query parameters: the handlers
    catch nothing, and the text of the store's error is not in the
    answer.  One query was attempted and nothing else changed. *)
Theorem listing_failure_is_plain_500 `{EmailValidator} c limit published_only w e :
  store_error w = Some e →
  GET_api c limit published_only w
  = (InternalServerError,
     log (Find (content_collection c)
            (filter_for (default true published_only))
            (Some (default (content_default_limit c) limit))) w).
Proof.
  intros Hs. rewrite GET_api_unfold. unfold serve, uncaught, try_except.
  by rewrite (list_content_refused _ _ _ _ _ Hs).
Qed.

Lemma listing_failure_is_plain_500_witness :
  GET_api (H := one_at_sign) posts None (Some false)
    (world_of (Some refusing_db))
  = (InternalServerError,
     log (Find "post" ∅ (Some 12)) (world_of (Some refusing_db))).
Proof.
  apply (listing_failure_is_plain_500 (H := one_at_sign) posts None
           (Some false) (world_of (Some refusing_db))
           (Exception refused_text)).
  by_computation.
Defined.

(** X11. While the store serves, a listing answers 200 exactly when
    the response model accepts every record it fetched: one stored
    record that the model rejects (a program without a title, say)
    among them turns the whole answer into a plain 500. *)
Theorem listing_needs_presentable_records `{EmailValidator}
  c limit published_only w :
  store_error w = None →
  (Forall (presentable (content_model c)) (fetched w c limit published_only) →
   ∃ records,
     (GET_api c (Some limit) (Some published_only) w).1 = HTTP200 records
     ∧ length records = length (fetched w c limit published_only))
  ∧ (¬ Forall (presentable (content_model c))
         (fetched w c limit published_only) →
     (GET_api c (Some limit) (Some published_only) w).1
     = InternalServerError).
Proof.
  intros Hs. rewrite (GET_api_served _ _ _ _ Hs), fetched_filter. simpl.
  unfold respond_list. split.
  - intros Hvalid.
    destruct (validate_all_presentable _ _ Hvalid) as (records & -> & Hrel).
    exists records. split; [reflexivity|].
    by rewrite (Forall2_length _ _ _ Hrel).
  - intros Hnot.
    destruct (validate_all _ _) as [records|] eqn:Hall; [|reflexivity].
    exfalso. apply Hnot. apply validate_all_pop_ids in Hall.
    eapply Forall2_Forall_l; [exact Hall|].
    apply Forall_forall. intros r _ d Hr. by exists r.
Qed.

Lemma listing_needs_presentable_records_witness :
  (GET_api (H := one_at_sign) programs (Some 20) (Some true)
     (world_of (Some untitled_db))).1
  = InternalServerError.
Proof.
  apply (proj2 (listing_needs_presentable_records (H := one_at_sign)
                  programs 20 true (world_of (Some untitled_db))
                  ltac:(by_computation))).
  assert (fetched (world_of (Some untitled_db)) programs 20 true
          = [untitled_program]) as -> by by_computation.
  intros Hall. apply Forall_cons in Hall as [[r Hr] _].
  assert (validate (H := one_at_sign) Program (delete "_id" untitled_program)
          = inl [("title", missing)]) as Hbad by by_computation.
  change (content_model programs) with Program in Hr.
  rewrite Hbad in Hr. discriminate.
Defined.

(** X12. With published_only false a listing filters nothing: the
    records of a 200 answer are the first [limit] records of the
    collection in store order, drafts included, each presented by the
    model without its [_id] and with its own status. *)
Theorem listing_with_drafts `{EmailValidator} c limit w records w' :
  GET_api c (Some limit) (Some false) w = (HTTP200 records, w') →
  Forall2 (λ d r, validate (content_model c) (delete "_id" d) = inr r
                  ∧ (draft d → draft r) ∧ (published d → published r))
    (take (Z.to_nat limit) (stored w (content_collection c))) records.
Proof.
  intros Hrun. apply GET_api_200 in Hrun as [_ Hrel].
  rewrite fetched_filter in Hrel. unfold fetched in Hrel.
  eapply Forall2_impl; [exact Hrel|]. intros d r Hr. simpl in Hr.
  split; [exact Hr|]. split; intros Hd.
  - apply (status_preserved c d r "draft"); [|exact Hd|exact Hr].
    apply list_elem_of_here.
  - apply (status_preserved c d r "published"); [|exact Hd|exact Hr].
    apply list_elem_of_further, list_elem_of_here.
Qed.

Lemma listing_with_drafts_witness :
  Forall2 (λ d r : document,
             validate (H := one_at_sign) Story (delete "_id" d) = inr r
             ∧ (draft d → draft r) ∧ (published d → published r))
    (take (Z.to_nat 2) (stored (world_of (Some stories_db)) "story"))
    [story_view 0 "published"; story_view 1 "draft"].
Proof.
  apply (listing_with_drafts (H := one_at_sign) stories 2
           (world_of (Some stories_db))
           [story_view 0 "published"; story_view 1 "draft"]
           (log (Find "story" ∅ (Some 2)) (world_of (Some stories_db)))).
  by_computation.
Defined.

(** X13. Nothing to list is not an error: while the store serves, a
    listing of a collection that holds no record (no published record,
    with published_only true) answers 200 with the empty list, for
    every limit. *)
Theorem empty_listing_is_200 `{EmailValidator} c limit (published_only : bool) w :
  store_error w = None →
  (if published_only then published_in w c
   else stored w (content_collection c)) = ([] : list document) →
  (GET_api c (Some limit) (Some published_only) w).1 = HTTP200 [].
Proof.
  intros Hs Hnone. rewrite (GET_api_served _ _ _ _ Hs), fetched_filter.
  unfold fetched. rewrite Hnone. by rewrite take_nil.
Qed.

Lemma empty_listing_is_200_witness :
  (GET_api (H := one_at_sign) posts (Some 5) (Some true)
     (world_of (Some stories_db))).1 = HTTP200 [].
Proof.
  apply (empty_listing_is_200 (H := one_at_sign) posts 5 true
           (world_of (Some stories_db))); by_computation.
Defined.

(** X14. A listing reads and never writes: whatever the query
    parameters and the outcome, the state after it differs from the
    state before by the record of one query, made on the route's own
    collection with the filter and the limit of the request. *)
Theorem listing_only_queries `{EmailValidator} c limit published_only w :
  (GET_api c limit published_only w).2
  = log (Find (content_collection c)
           (if default true published_only
            then {[ "status" := VStr "published" ]} else ∅)
           (Some (default (content_default_limit c) limit))) w
  ∧ db (GET_api c limit published_only w).2 = db w
  ∧ content_collection programs = "program"
  ∧ content_collection stories = "story"
  ∧ content_collection posts = "post".
Proof.
  assert ((GET_api c limit published_only w).2
          = log (Find (content_collection c)
                   (filter_for (default true published_only))
                   (Some (default (content_default_limit c) limit))) w) as Hw.
  { rewrite GET_api_unfold. unfold serve, uncaught, try_except.
    destruct (store_error w) as [e|] eqn:Hs.
    - by rewrite (list_content_refused _ _ _ _ _ Hs).
    - by rewrite (list_content_served _ _ _ _ Hs). }
  split; [exact Hw|]. split; [by rewrite Hw|done].
Qed.


(** * Further properties of the diagnostic endpoint *)

(** A cut has no more characters than asked for. *)
Lemma len_first_chars n s : (len (first_chars n s) ≤ n)%nat.
Proof.
  revert n. induction s as [|c s IH]; intros n; simpl; [lia|].
  destruct (continues c) eqn:Hc; simpl; rewrite ?Hc; [apply IH|].
  destruct n as [|n]; simpl; rewrite ?Hc; [lia|].
  specialize (IH n). lia.
Qed.

(** X15. A failure at a step of the diagnosis is reported as data.
    When reading the name of the handle raises an exception that is
    not an AttributeError, [database] is the error mark followed by
    the first 120 characters of the error's text and the connection
    stays reported as not connected.  An AttributeError is swallowed
    by [hasattr]: the handle is taken to have no name, and with a
    working store the report says connected and working, with the
    text Connected for a name.  When the name is read and listing the
    collections raises, [database] is the warning followed by the
    first 80 characters of the text, the connection is reported as
    connected and no collection is listed.  The cuts count
    characters, not bytes. *)
Theorem diagnostic_reports_failures w d :
  db w = Some d →
  (∀ e, name d = AttrRaises e → is_attribute_error e = false →
        ∃ report,
          report_of w = Some report
          ∧ report !! "database"
            = Some (VStr ("❌ Error: " ++ first_chars 120 (str e)))
          ∧ report !! "connection_status" = Some (VStr "Not Connected")
          ∧ report !! "collections" = Some (VList [])
          ∧ (len (first_chars 120 (str e)) ≤ 120)%nat)
  ∧ (∀ e, name d = AttrRaises e → is_attribute_error e = true →
          fault d = None →
          ∃ report,
            report_of w = Some report
            ∧ report !! "database" = Some (VStr "✅ Connected & Working")
            ∧ report !! "database_name" = Some (VStr "✅ Connected")
            ∧ report !! "connection_status" = Some (VStr "Connected"))
  ∧ (∀ text, name_is_read d → fault d = Some text →
             ∃ report,
               report_of w = Some report
               ∧ report !! "database"
                 = Some (VStr ("⚠️ Connected but Error: "
                               ++ first_chars 80 text))
               ∧ report !! "connection_status" = Some (VStr "Connected")
               ∧ report !! "collections" = Some (VList [])
               ∧ (len (first_chars 80 text) ≤ 80)%nat).
Proof.
  intros Hdb. split; [|split].
  - intros e Hname He.
    destruct (diagnostic_reports_attribute_error w d e Hdb Hname He)
      as (report & Hrun & Hdatabase & Hstatus & Hcollections).
    exists report. split; [unfold report_of; by rewrite Hrun|].
    split; [exact Hdatabase|]. split; [exact Hstatus|].
    split; [exact Hcollections|apply len_first_chars].
  - intros e Hname He Hfault.
    assert (name_is_read d) as Hread.
    { intros e' Hname'. congruence. }
    destruct (diagnostic_reports_working w d Hdb Hread Hfault)
      as (report & Hrun & Hdatabase & Hdbname & Hstatus & _).
    exists report. split; [unfold report_of; by rewrite Hrun|].
    split; [exact Hdatabase|]. split; [|exact Hstatus].
    by rewrite Hdbname, Hname.
  - intros text Hread Hfault.
    destruct (diagnostic_reports_store_fault w d text Hdb Hread Hfault)
      as (report & Hrun & Hdatabase & Hstatus & Hcollections).
    exists report. split; [unfold report_of; by rewrite Hrun|].
    split; [exact Hdatabase|]. split; [exact Hstatus|].
    split; [exact Hcollections|apply len_first_chars].
Qed.

Lemma diagnostic_reports_failures_witness :
  (∃ report,
     report_of (world_of (Some nameless_db)) = Some report
     ∧ report !! "database"
       = Some (VStr ("❌ Error: "
                     ++ first_chars 120 "name is not available"))
     ∧ report !! "connection_status" = Some (VStr "Not Connected")
     ∧ report !! "collections" = Some (VList [])
     ∧ (len (first_chars 120 "name is not available") ≤ 120)%nat)
  ∧ (∃ report,
       report_of (world_of (Some hidden_name_db)) = Some report
       ∧ report !! "database" = Some (VStr "✅ Connected & Working")
       ∧ report !! "database_name" = Some (VStr "✅ Connected")
       ∧ report !! "connection_status" = Some (VStr "Connected"))
  ∧ (∃ report,
       report_of (world_of (Some refusing_db)) = Some report
       ∧ report !! "database"
         = Some (VStr ("⚠️ Connected but Error: "
                       ++ first_chars 80 refused_text))
       ∧ report !! "connection_status" = Some (VStr "Connected")
       ∧ report !! "collections" = Some (VList [])
       ∧ (len (first_chars 80 refused_text) ≤ 80)%nat).
Proof.
  split; [|split].
  - apply (proj1 (diagnostic_reports_failures (world_of (Some nameless_db))
                    nameless_db eq_refl)
             (Exception "name is not available")); reflexivity.
  - apply (proj1 (proj2 (diagnostic_reports_failures
                           (world_of (Some hidden_name_db))
                           hidden_name_db eq_refl))
             (AttributeError "name")); reflexivity.
  - apply (proj2 (proj2 (diagnostic_reports_failures
                           (world_of (Some refusing_db))
                           refusing_db eq_refl)) refused_text).
    + intros e. discriminate.
    + reflexivity.
Defined.

(** X16. With a handle whose steps all succeed the report says
    connected and working, gives the name of the database (or, for a
    handle without a name attribute, the text Connected), and lists
    the first 20 collection names. *)
Theorem diagnostic_reports_working_store w d :
  db w = Some d → fault d = None → (∀ e, name d ≠ AttrRaises e) →
  ∃ report,
    report_of w = Some report
    ∧ report !! "database" = Some (VStr "✅ Connected & Working")
    ∧ report !! "database_name"
      = Some match name d with
             | Attr v => v
             | _ => VStr "✅ Connected"
             end
    ∧ report !! "connection_status" = Some (VStr "Connected")
    ∧ report !! "collections"
      = Some (VList (VStr <$> take 20 (collection_names d))).
Proof.
  intros Hdb Hfault Hname.
  unfold report_of, test_database, name_or_connected, list_collection_names,
    collection_names.
  rewrite Hdb, Hfault. destruct (name d) as [|v|e]; [| |by destruct (Hname e)];
    (eexists; split; [reflexivity|]; repeat split; by_computation).
Qed.

Lemma diagnostic_reports_working_store_witness :
  ∃ report,
    report_of (world_of (Some stories_db)) = Some report
    ∧ report !! "database" = Some (VStr "✅ Connected & Working")
    ∧ report !! "database_name" = Some (VStr "caprecon")
    ∧ report !! "connection_status" = Some (VStr "Connected")
    ∧ report !! "collections" = Some (VList [VStr "story"]).
Proof.
  destruct (diagnostic_reports_working_store (world_of (Some stories_db))
              stories_db eq_refl eq_refl ltac:(intros e; discriminate))
    as (report & Hreport & Hdatabase & Hname & Hstatus & Hcollections).
  exists report. repeat split; assumption.
Defined.

Ltac listed_names names :=
  eexists _, names; split; [reflexivity|];
  split; [by_computation|]; split; [by_computation|];
  split; [by_computation|];
  first [ rewrite length_take; apply Nat.le_min_l | simpl; lia ].

(** X17. In every state the report has the same six keys, says that
    the backend is running, and lists at most 20 collections. *)
Theorem report_shape w :
  ∃ report names,
    report_of w = Some report
    ∧ dom report = report_keys
    ∧ report !! "backend" = Some (VStr "✅ Running")
    ∧ report !! "collections" = Some (VList (VStr <$> names))
    ∧ (length names ≤ 20)%nat.
Proof.
  unfold report_of, test_database, name_or_connected, list_collection_names.
  destruct (db w) as [d|].
  - destruct (name d) as [|v|[[] text']]; destruct (fault d) as [text|].
    + listed_names (@nil string).
    + listed_names (take 20 (map fst (map_to_list (collections d)))).
    + listed_names (@nil string).
    + listed_names (take 20 (map fst (map_to_list (collections d)))).
    + listed_names (@nil string).
    + listed_names (@nil string).
    + listed_names (@nil string).
    + listed_names (take 20 (map fst (map_to_list (collections d)))).
  - listed_names (@nil string).
Qed.

(** X18. The report says that the connection string is set exactly
    when a database handle exists and DATABASE_URL is set to a text
    that is not empty; with a handle and the variable unset or empty
    it says not set, and without a handle it says nothing, whatever
    the variable. *)
Theorem report_of_connection_string w :
  ∃ report,
    report_of w = Some report
    ∧ (report !! "database_url" = Some (VStr "✅ Set") ↔
       is_Some (db w)
       ∧ ∃ s, environ w !! "DATABASE_URL" = Some s ∧ s ≠ "")
    ∧ (report !! "database_url" = Some (VStr "❌ Not Set") ↔
       is_Some (db w)
       ∧ (environ w !! "DATABASE_URL" = None
          ∨ environ w !! "DATABASE_URL" = Some ""))
    ∧ (report !! "database_url" = Some VNone ↔ db w = None).
Proof.
  assert (∃ report,
            report_of w = Some report
            ∧ report !! "database_url"
              = Some match db w with
                     | None => VNone
                     | Some _ =>
                       VStr (if truthy (getenv w "DATABASE_URL")
                             then "✅ Set" else "❌ Not Set")
                     end) as (report & Hreport & Hurl).
  { unfold report_of, test_database, name_or_connected, list_collection_names.
    destruct (db w) as [d|].
    - destruct (name d) as [|v|[[] text']]; destruct (fault d) as [text|];
        (eexists; split; [reflexivity|by_computation]).
    - eexists; split; [reflexivity|by_computation]. }
  exists report. split; [exact Hreport|]. rewrite Hurl. unfold getenv, truthy.
  destruct (db w) as [d|].
  - destruct (environ w !! "DATABASE_URL") as [s|] eqn:Henv.
    + destruct (String.eqb_spec s "") as [->|Hne]; simpl.
      * split; [|split].
        -- split; [discriminate|]. intros [_ (s & [= <-] & Hs)]. done.
        -- split; [|done]. intros _. split; [by eexists|]. by right.
        -- split; discriminate.
      * split; [|split].
        -- split; [|done]. intros _. split; [by eexists|]. by exists s.
        -- split; [discriminate|].
           intros [_ [Hn|Hn]]; [discriminate|congruence].
        -- split; discriminate.
    + simpl. split; [|split].
      * split; [discriminate|]. intros [_ (s & Hs & _)]. discriminate.
      * split; [|done]. intros _. split; [by eexists|]. by left.
      * split; discriminate.
  - split; [|split].
    + split; [discriminate|]. intros [[d Hd] _]. discriminate.
    + split; [discriminate|]. intros [[d Hd] _]. discriminate.
    + done.
Qed.


(** * How the routes compose *)

Section Composition.
Context `{EmailValidator}.

(** An insert leaves the other collections and the health of the
    store as they were. *)
Lemma create_document_keeps_others collection_name data w other :
  collection_name ≠ other →
  stored (create_document collection_name data w).2 other = stored w other
  ∧ store_error (create_document collection_name data w).2 = store_error w.
Proof.
  intros Hne.
  unfold stored, store_error, create_document, bind, modify, get, raise, ret.
  simpl. destruct (db w) as [d|] eqn:Hdb; simpl; rewrite ?Hdb; [|done].
  destruct (fault d) as [text|] eqn:Hf; simpl; rewrite ?Hdb, ?Hf; [done|].
  split; [|reflexivity]. by apply lookup_total_insert_ne.
Qed.

(** The answer of a listing depends on the state through the health of
    the store and the route's own collection only. *)
Lemma GET_api_same_answer c limit published_only w1 w2 :
  store_error w1 = store_error w2 →
  stored w1 (content_collection c) = stored w2 (content_collection c) →
  (GET_api c limit published_only w1).1
  = (GET_api c limit published_only w2).1.
Proof.
  intros Hs Hstored. rewrite !GET_api_unfold.
  unfold serve, uncaught, try_except.
  destruct (store_error w2) as [e|] eqn:Hs2.
  - by rewrite (list_content_refused _ _ _ _ _ Hs),
         (list_content_refused _ _ _ _ _ Hs2).
  - by rewrite (list_content_served _ _ _ _ Hs),
         (list_content_served _ _ _ _ Hs2), Hstored.
Qed.

Lemma form_collection_is_no_content f c :
  form_collection f ≠ content_collection c.
Proof. by destruct f, c. Qed.

End Composition.

(** X19. Submitting a form never changes what the listings show: the
    forms are inserted into collections of their own, which no
    listing reads, so after any create request (accepted, rejected or
    failed) every listing answers as it would have before. *)
Theorem forms_do_not_change_listings `{EmailValidator}
  f body w c limit published_only :
  (GET_api c limit published_only (POST_api f body w).2).1
  = (GET_api c limit published_only w).1.
Proof.
  apply GET_api_same_answer.
  - destruct (validate (form_model f) body) as [errs|m] eqn:Hv.
    + assert (POST_api f body w = (rejection body errs, w)) as ->; [|done].
      rewrite POST_api_unfold. unfold with_body. by rewrite Hv.
    + rewrite (POST_api_valid f body m w Hv).
      destruct (create_document_keeps_others (form_collection f) m w
                  (content_collection c) (form_collection_is_no_content f c))
        as [_ Hs].
      by destruct (create_document _ _ _) as [[oid|e] w'].
  - destruct (validate (form_model f) body) as [errs|m] eqn:Hv.
    + assert (POST_api f body w = (rejection body errs, w)) as ->; [|done].
      rewrite POST_api_unfold. unfold with_body. by rewrite Hv.
    + rewrite (POST_api_valid f body m w Hv).
      destruct (create_document_keeps_others (form_collection f) m w
                  (content_collection c) (form_collection_is_no_content f c))
        as [Hstored _].
      by destruct (create_document _ _ _) as [[oid|e] w'].
Qed.

(** * The metric class *)

(** X20. A metric needs its key, label and value and bounds the value
    by nothing: with the three present in their types and unit and
    period omitted, the record is built for every number (a negative
    one or zero too, unlike the amount of a donation), with unit and
    period None; without one of the three the input is rejected. *)
Theorem metric_value_is_unbounded `{EmailValidator} raw key label value :
  raw !! "key" = Some (VStr key) →
  raw !! "label" = Some (VStr label) →
  raw !! "unit" = None → raw !! "period" = None →
  (raw !! "value" = Some (VNum value) →
   validate Metric raw
   = inr {[ "key" := VStr key; "label" := VStr label;
            "value" := VNum value; "unit" := VNone; "period" := VNone ]})
  ∧ (raw !! "value" = None →
     validate Metric raw = inl [("value", missing)]).
Proof.
  intros Hkey Hlabel Hunit Hperiod. split; intros Hvalue;
    unfold validate, Metric, validate_fields, check_field;
    cbn [f_name f_type f_default f_gt];
    rewrite Hkey, Hlabel, Hunit, Hperiod, Hvalue; reflexivity.
Qed.

Lemma metric_value_is_unbounded_witness :
  validate (H := one_at_sign) Metric
    {[ "key" := VStr "wells"; "label" := VStr "Wells drilled";
       "value" := VNum (-3)%float ]}
  = inr {[ "key" := VStr "wells"; "label" := VStr "Wells drilled";
           "value" := VNum (-3)%float; "unit" := VNone; "period" := VNone ]}.
Proof.
  apply (metric_value_is_unbounded (H := one_at_sign)
           {[ "key" := VStr "wells"; "label" := VStr "Wells drilled";
              "value" := VNum (-3)%float ]}
           "wells" "Wells drilled" (-3)%float); by_computation.
Defined.
